(** * Taxonomy nodes: the Node model, NodeForm and the admin glue

    A shallow embedding of [taxonomy.py].  The file defines the [Node] model
    (field validation, guarded deletion), the [NodeForm] that maps a flat
    "choose a parent" field onto the tree operations, and the admin helpers
    (delete button, add-child view).

    The tree itself is kept by the materialized-path tree library and the
    rows by the web framework's ORM.  Both are external to the repository;
    they are modelled here at the level of their documented contracts: the
    table of rows is a list, a row's position in the tree is its parent
    pointer, and the order of siblings is the order of their rows in the
    table (the order of their paths). *)

From Stdlib Require Import ZArith NArith String Ascii Bool List Sorted
  Permutation Lia.
Import ListNotations.

Local Open Scope Z_scope.

(** ** Text *)

(** A Python [str] is a sequence of Unicode code points. *)
Definition str : Type := list N.

Definition text (s : string) : str :=
  map N_of_ascii (list_ascii_of_string s).

Fixpoint str_eqb (a b : str) : bool :=
  match a, b with
  | [], [] => true
  | x :: a', y :: b' => (x =? y)%N && str_eqb a' b'
  | _, _ => false
  end.

(** [a > b] in the binary (code point) collation. *)
Fixpoint str_gtb (a b : str) : bool :=
  match a, b with
  | [], _ => false
  | _ :: _, [] => true
  | x :: a', y :: b' =>
      if (y <? x)%N then true
      else if (x <? y)%N then false
      else str_gtb a' b'
  end.

Definition option_Z_eqb (a b : option Z) : bool :=
  match a, b with
  | None, None => true
  | Some x, Some y => x =? y
  | _, _ => false
  end.

(** ** Validation errors of the [name] field *)

Inductive ErrorCode : Type :=
| invalid          (* RegexValidator *)
| min_length       (* MinLengthValidator *)
| max_length       (* MaxLengthValidator, from max_length= *)
| blank            (* empty value on a field that is not blank=True *)
| unique           (* unique=True *)
| required_error   (* form field with required=True left empty *)
| invalid_choice.  (* ModelChoiceField value outside its queryset *)

(** ** Exceptions *)

Inductive Exception : Type :=
| PermissionDenied (message : string)
| ValueError                 (* ModelForm.save on a form with errors;
                                a key that is no numeral *)
| DoesNotExist               (* Model.objects.get without a match *)
| Http404                    (* get_object_or_404 without a match *)
| KeyError                   (* cleaned_data without the key *)
| AttributeError             (* method call on None *)
| IntegrityError             (* insert of a row without its tree columns *)
| NodeAlreadySaved           (* tree library: add_* of a saved instance *)
| InvalidMoveToDescendant.   (* tree library: move below the moved node *)

Inductive Result (A : Type) : Type :=
| Ok (a : A)
| Raise (e : Exception).

Arguments Ok {A} a.
Arguments Raise {A} e.

(** ** The model *)

(** An in-memory [Node] instance: the primary key ([None] until the instance
    is saved) and the model's own columns.  The tree-positional attributes
    belong to the tree library and are read from its table. *)
Record Node : Type := mkNode {
  id : option Z;
  name : str;
  aliases : str;
  node_order_index : Z
}.

(** A stored row: the columns of [Node] and the row's place in the tree. *)
Record Row : Type := mkRow {
  pk : Z;
  row_name : str;
  row_aliases : str;
  row_order : Z;
  row_parent : option Z
}.

(** [Node.objects]: the table.  The rows of one parent appear in it in their
    sibling order. *)
Definition Store : Type := list Row.

Definition instance_of (r : Row) : Node :=
  mkNode (Some (pk r)) (row_name r) (row_aliases r) (row_order r).

Definition row_of (k : Z) (parent : option Z) (n : Node) : Row :=
  mkRow k (name n) (aliases n) (node_order_index n) parent.

(** ** Effects: the table is threaded through; an exception leaves the table
    as it was when it was raised (the ORM's default, autocommit). *)

Definition M (A : Type) : Type := Store -> Result A * Store.

Definition ret {A} (a : A) : M A := fun st => (Ok a, st).

Definition raise {A} (e : Exception) : M A := fun st => (Raise e, st).

Definition bind {A B} (m : M A) (k : A -> M B) : M B :=
  fun st =>
    match m st with
    | (Ok a, st') => k a st'
    | (Raise e, st') => (Raise e, st')
    end.

Definition get_store : M Store := fun st => (Ok st, st).

Declare Scope m_scope.
Delimit Scope m_scope with m.

Notation "x <- c ;; k" := (bind c (fun x => k))
  (at level 100, c at next level, right associativity) : m_scope.
Notation "c ;;; k" := (bind c (fun _ => k))
  (at level 100, right associativity) : m_scope.

Local Open Scope m_scope.

(** A table without alphanumerics above ASCII, for the concrete runs at the
    end of the file; they use ASCII text, on which validation never consults
    the table. *)
Definition ascii_table : N -> bool := fun _ => false.

Section Taxonomy.

(** The Unicode database's alphanumeric test for the code points above
    ASCII, which the regular expression engine consults for [\w]. *)
Variable unicode_alnum : N -> bool.

(** ** node_name_validator *)

Definition in_range (lo hi c : N) : bool := ((lo <=? c) && (c <=? hi))%N.

(** [a-zA-Z] *)
Definition ascii_letter (c : N) : bool := in_range 97 122 c || in_range 65 90 c.

Definition ascii_digit (c : N) : bool := in_range 48 57 c.

(** [\w] on a [str] pattern: a Unicode word character. *)
Definition word_char (c : N) : bool :=
  if (c <? 128)%N
  then ascii_letter c || ascii_digit c || (c =? 95)%N
  else unicode_alnum c.

(** [[a-zA-Z &]] *)
Definition name_char (c : N) : bool :=
  ascii_letter c || (c =? 32)%N || (c =? 38)%N.

(** [[a-zA-Z &]+$]: one or more characters of the class up to the end of the
    string; [$] also matches just before a newline that ends the string. *)
Fixpoint name_tail (seen : bool) (s : str) : bool :=
  match s with
  | [] => seen
  | c :: rest =>
      if name_char c then name_tail true rest
      else seen && (c =? 10)%N && match rest with [] => true | _ => false end
  end.

(** regex='^[\w][a-zA-Z &]+$', searched from the start of the value. *)
Definition node_name_regex (s : str) : bool :=
  match s with
  | [] => false
  | c :: rest => word_char c && name_tail false rest
  end.

Definition node_name_validator (s : str) : list ErrorCode :=
  if node_name_regex s then [] else [invalid].

Definition MinLengthValidator (limit : nat) (s : str) : list ErrorCode :=
  if (length s <? limit)%nat then [min_length] else [].

Definition MaxLengthValidator (limit : nat) (s : str) : list ErrorCode :=
  if (limit <? length s)%nat then [max_length] else [].

(** The validators of [Node.name], in the order the field runs them: the
    listed ones, then the one that [max_length=50] adds. *)
Definition name_validators : list (str -> list ErrorCode) :=
  [node_name_validator; MinLengthValidator 5; MaxLengthValidator 50].

(** Field validation of [Node.name]: an empty value is refused as blank,
    any other value is passed through every validator and the errors are
    collected. *)
Definition name_clean (s : str) : list ErrorCode :=
  match s with
  | [] => [blank]
  | _ => flat_map (fun v => v s) name_validators
  end.

Definition name_accepted (s : str) : bool :=
  match name_clean s with [] => true | _ => false end.


(** ** The table and the tree library (MP_Node) *)

(** [Node.objects.count()] *)
Definition count (st : Store) : nat := length st.

Fixpoint find_row (k : Z) (st : Store) : option Row :=
  match st with
  | [] => None
  | r :: rest => if pk r =? k then Some r else find_row k rest
  end.

(** The stored row of an instance; an unsaved instance has none. *)
Definition row_for (st : Store) (n : Node) : option Row :=
  match id n with
  | Some k => find_row k st
  | None => None
  end.

(** [Node.objects.get(pk=k)] *)
Definition objects_get (k : Z) : M Node :=
  fun st =>
    match find_row k st with
    | Some r => (Ok (instance_of r), st)
    | None => (Raise DoesNotExist, st)
    end.

(** The keys of the ancestors of a row whose parent pointer is [p], nearest
    first.  No chain in a table is longer than the table. *)
Fixpoint ancestors (fuel : nat) (st : Store) (p : option Z) : list Z :=
  match fuel, p with
  | S f, Some k =>
      k :: match find_row k st with
           | Some r => ancestors f st (row_parent r)
           | None => []
           end
  | _, _ => []
  end.

(** [get_depth()]: 1 for a root; [None] for an instance that was never
    stored. *)
Definition get_depth (st : Store) (n : Node) : option nat :=
  match row_for st n with
  | Some r => Some (S (length (ancestors (length st) st (row_parent r))))
  | None => None
  end.

(** [is_root()]: [self.depth == 1] *)
Definition is_root (st : Store) (n : Node) : bool :=
  match get_depth st n with
  | Some d => (d =? 1)%nat
  | None => false
  end.

(** [get_parent()]: the key of the parent object, [None] for a root.  The
    form asks for the parent of stored nodes only. *)
Definition get_parent (self : Node) : M (option Z) :=
  fun st =>
    match row_for st self with
    | None => (Raise DoesNotExist, st)
    | Some r =>
        match row_parent r with
        | None => (Ok None, st)
        | Some p =>
            match find_row p st with
            | Some _ => (Ok (Some p), st)
            | None => (Raise DoesNotExist, st)
            end
        end
    end.

(** [r.is_descendant_of(k)] *)
Definition is_descendant_of (st : Store) (r : Row) (k : Z) : bool :=
  existsb (Z.eqb k) (ancestors (length st) st (row_parent r)).

(** The branch of [k]: the node [k] and its descendants. *)
Definition in_branch (st : Store) (k : Z) (r : Row) : bool :=
  (pk r =? k) || is_descendant_of st r k.

(** The rows under parent pointer [p], in sibling order. *)
Definition siblings_under (p : option Z) (st : Store) : list Row :=
  filter (fun r => option_Z_eqb (row_parent r) p) st.

(** [get_children()] *)
Definition get_children (k : Z) (st : Store) : list Row :=
  siblings_under (Some k) st.

(** [Node.get_root_nodes()] *)
Definition get_root_nodes (st : Store) : list Row := siblings_under None st.

Definition root_count (st : Store) : nat := length (get_root_nodes st).

(** [node_order_by = ['node_order_index', 'name']]: row [r] sorts strictly
    after row [n]. *)
Definition sorts_after (r n : Row) : bool :=
  (row_order n <? row_order r)
  || ((row_order r =? row_order n) && str_gtb (row_name r) (row_name n)).

(** Sorted insertion: the new row goes right before the first of its
    siblings that sorts after it, and after all of them when there is none. *)
Fixpoint insert_sorted (new : Row) (st : Store) : Store :=
  match st with
  | [] => [new]
  | r :: rest =>
      if option_Z_eqb (row_parent r) (row_parent new) && sorts_after r new
      then new :: r :: rest
      else r :: insert_sorted new rest
  end.

(** The same insertion seen on the list of siblings alone. *)
Fixpoint place_sorted (new : Row) (sibs : list Row) : list Row :=
  match sibs with
  | [] => [new]
  | r :: rest =>
      if sorts_after r new
      then new :: r :: rest
      else r :: place_sorted new rest
  end.

(** [a] may stand before [b] among siblings. *)
Definition in_order (a b : Row) : Prop := sorts_after a b = false.

(** A key for the next inserted row: one that no row of the table has.  The
    database's own counter also passes over the keys of deleted rows. *)
Definition next_pk (st : Store) : Z :=
  1 + fold_right (fun r m => Z.max (pk r) m) 0 st.

Definition with_id (k : Z) (n : Node) : Node :=
  mkNode (Some k) (name n) (aliases n) (node_order_index n).

(** Insertion of a new instance below parent pointer [p].  The limits of the
    library on the depth and the width of the tree are not modelled. *)
Definition add_sorted (p : option Z) (instance : Node) : M Node :=
  match id instance with
  | Some _ => raise NodeAlreadySaved
  | None =>
      fun st =>
        let k := next_pk st in
        (Ok (with_id k instance), insert_sorted (row_of k p instance) st)
  end.

(** [Node.add_root(instance=instance)] *)
Definition add_root (instance : Node) : M Node := add_sorted None instance.

(** [parent.add_child(instance=instance)], [parent] given by its key. *)
Definition add_child (parent : Z) (instance : Node) : M Node :=
  add_sorted (Some parent) instance.

(** The row [r] as [self.save()] writes it: the row of the instance's key
    takes the instance's columns. *)
Definition save_row (self : Node) (r : Row) : Row :=
  if option_Z_eqb (Some (pk r)) (id self)
  then row_of (pk r) (row_parent r) self
  else r.

(** [Model.save()] of an instance: the row of that key takes the
    instance's columns and keeps its place in the tree.  An instance without
    a row would be inserted without its tree columns, which the table
    refuses. *)
Definition Model_save (self : Node) : M unit :=
  fun st =>
    match row_for st self with
    | Some _ => (Ok tt, map (save_row self) st)
    | None => (Raise IntegrityError, st)
    end.

(** [MP_Node.delete()]: removes the node and all its descendants. *)
Definition MP_Node_delete (self : Node) : M unit :=
  fun st =>
    match id self with
    | Some k => (Ok tt, filter (fun r => negb (in_branch st k r)) st)
    | None => (Ok tt, st)
    end.

Inductive Pos : Type := sorted_child.

(** [self.move(target, pos='sorted-child')], [target] given by its key: the
    node, with its branch, becomes a child of [target] at its sorted
    position.  The library refuses a target among the descendants of the
    moved node.  What it does with a target that is the moved node itself
    is not part of its contract; the model refuses that target as well, and
    the statements about moves below leave it out. *)
Definition move (self : Node) (target : Z) (pos : Pos) : M unit :=
  fun st =>
    match row_for st self, find_row target st with
    | Some r, Some t =>
        if in_branch st (pk r) t
        then (Raise InvalidMoveToDescendant, st)
        else
          (Ok tt,
           insert_sorted
             (mkRow (pk r) (row_name r) (row_aliases r) (row_order r)
                (Some (pk t)))
             (filter (fun x => negb (pk x =? pk r)) st))
    | _, _ => (Raise DoesNotExist, st)
    end.

(** ** Node.delete *)

Definition Node_delete (self : Node) : M unit :=
  st <- get_store ;;
  if is_root st self
  then raise (PermissionDenied "Cannot delete root Topic.")
  else MP_Node_delete self.

(** ** NodeForm *)

Inductive Widget : Type := Select | HiddenInput.

(** The attributes of the [parent] choice field that the form touches. *)
Record ChoiceField : Type := mkChoiceField {
  disabled : bool;
  required : bool;
  empty_label : option string;
  widget : Widget;
  initial : option Z
}.

(** A bound form: the instance, the form-level initial value and the
    submitted value of [parent] (keys of rows, [None] when absent or empty),
    the values of [name] and [aliases] as the form's own fields hand them on
    (the framework strips the whitespace around the submitted text first),
    and the two fields that [__init__] adjusts. *)
Record NodeForm : Type := mkNodeForm {
  instance : Node;
  form_initial : option Z;
  data_name : str;
  data_aliases : str;
  data_parent : option Z;
  parent : ChoiceField;
  name_label : string
}.

(** [parent = BasicNodeChoiceField(required=True, queryset=Node.objects.all(),
    empty_label=None)] *)
Definition parent_declared : ChoiceField :=
  mkChoiceField false true None Select None.

(** The form as the framework's constructor leaves it; the label of [name]
    is the capitalised field name. *)
Definition ModelForm_init (instance : Node) (form_initial : option Z)
    (data_name data_aliases : str) (data_parent : option Z) : NodeForm :=
  mkNodeForm instance form_initial data_name data_aliases data_parent
    parent_declared "Name".

Definition set_parent (f : NodeForm) (c : ChoiceField) : NodeForm :=
  mkNodeForm (instance f) (form_initial f) (data_name f) (data_aliases f)
    (data_parent f) c (name_label f).

Definition set_name_label (f : NodeForm) (l : string) : NodeForm :=
  mkNodeForm (instance f) (form_initial f) (data_name f) (data_aliases f)
    (data_parent f) (parent f) l.

(** The truth value of [instance.id]. *)
Definition truthy (i : option Z) : bool :=
  match i with
  | Some k => negb (k =? 0)
  | None => false
  end.

(** [NodeForm.__init__].  [count() is 0] is an identity test against a
    small integer and holds exactly when the count is zero. *)
Definition NodeForm_init (instance : Node) (form_initial : option Z)
    (data_name data_aliases : str) (data_parent : option Z) : M NodeForm :=
  let self :=
    ModelForm_init instance form_initial data_name data_aliases data_parent in
  st <- get_store ;;
  if is_root st instance || (count st =? 0)%nat
  then
    (* hide and disable the parent field *)
    let field :=
      mkChoiceField true false (Some "N/A - Root Node"%string) HiddenInput
        (initial (parent self)) in
    (* update label to indicate this is the root *)
    ret (set_name_label (set_parent self field)
           (name_label self ++ " (Root)"))
  else if truthy (id instance)
  then
    p <- get_parent instance ;;
    ret (set_parent self
           (mkChoiceField (disabled (parent self)) (required (parent self))
              (empty_label (parent self)) (widget (parent self)) p))
  else ret self.

(** The value a disabled field is cleaned from: the form's initial data,
    else the field's own. *)
Definition get_initial_for_field (f : NodeForm) : option Z :=
  match form_initial f with
  | Some k => Some k
  | None => initial (parent f)
  end.

(** Cleaning of the [parent] field: a disabled field ignores the submitted
    value; a value must be the key of a row of the queryset; an empty value
    is an error on a required field. *)
Definition clean_parent (st : Store) (f : NodeForm)
  : option Z + list ErrorCode :=
  let value :=
    if disabled (parent f) then get_initial_for_field f else data_parent f in
  match value with
  | None => if required (parent f) then inr [required_error] else inl None
  | Some k =>
      match find_row k st with
      | Some _ => inl (Some k)
      | None => inr [invalid_choice]
      end
  end.

(** [unique=True]: another row has the name. *)
Definition name_taken (st : Store) (f : NodeForm) : bool :=
  existsb
    (fun r =>
       str_eqb (row_name r) (data_name f)
       && negb (option_Z_eqb (Some (pk r)) (id (instance f))))
    st.

(** [form.errors], on the values that the form's fields hand on. *)
Definition errors (st : Store) (f : NodeForm) : list ErrorCode :=
  name_clean (data_name f)
  ++ (if name_taken st f then [unique] else [])
  ++ MaxLengthValidator 255 (data_aliases f)
  ++ match clean_parent st f with
     | inl _ => []
     | inr es => es
     end.

(** The form's instance with the cleaned values of its model fields. *)
Definition construct_instance (f : NodeForm) : Node :=
  mkNode (id (instance f)) (data_name f) (data_aliases f)
    (node_order_index (instance f)).

(** [super().save(commit=False)]: refuses a form with errors, otherwise
    hands back the instance carrying the cleaned field values, unsaved. *)
Definition ModelForm_save_uncommitted (f : NodeForm) : M Node :=
  st <- get_store ;;
  match errors st f with
  | [] => ret (construct_instance f)
  | _ :: _ => raise ValueError
  end.

(** [self.cleaned_data['parent']] *)
Definition cleaned_data_parent (f : NodeForm) : M (option Z) :=
  st <- get_store ;;
  match clean_parent st f with
  | inl v => ret v
  | inr _ => raise KeyError
  end.

(** A method call on the selected parent, which may be [None]. *)
Definition on_parent {A} (parent : option Z) (method : Z -> M A) : M A :=
  match parent with
  | Some p => method p
  | None => raise AttributeError
  end.

(** [NodeForm.save] *)
Definition NodeForm_save (self : NodeForm) (commit : bool) : M Node :=
  instance <- ModelForm_save_uncommitted self ;;
  parent <- cleaned_data_parent self ;;
  if negb commit
  then
    (* simply return the instance if not actually saving (committing) *)
    ret instance
  else
    match id instance with
    | None =>
        (* creating a new node *)
        st <- get_store ;;
        if (count st =? 0)%nat
        then add_root instance            (* no nodes, creating root *)
        else on_parent parent (fun p => add_child p instance)
    | Some _ =>
        (* editing an existing node *)
        Model_save instance ;;;
        current <- get_parent instance ;;
        if negb (option_Z_eqb current parent)
        then on_parent parent (fun p => move instance p sorted_child) ;;;
             ret instance
        else ret instance
    end.

(** ** NodeButtonHelper *)

Record Button : Type := mkButton {
  url : string;
  label : string;
  classname : string;
  title : string
}.

(** The framework's [ButtonHelper.delete_button]. *)
Variable ButtonHelper_delete_button : Z -> Button.

(** [NodeButtonHelper.delete_button]; a bare [return] is [None]. *)
Definition delete_button (pk : Z) : M (option Button) :=
  instance <- objects_get pk ;;
  st <- get_store ;;
  if is_root st instance
  then ret None
  else ret (Some (ButtonHelper_delete_button pk)).

(** ** Keys in addresses *)

(** [django.contrib.admin.utils.unquote] undoes the escapes that an
    underscore opens and leaves text without an underscore as it is.  How
    an escape is decoded is the framework's. *)
Variable unquote_escapes : str -> str.

Definition unquote (s : str) : str :=
  if existsb (N.eqb 95) s then unquote_escapes s else s.

(** Text made of visible ASCII characters other than the underscore, not
    longer than the interpreter lets a numeral be. *)
Definition plain_text (s : str) : bool :=
  forallb (fun c => in_range 33 126 c && negb (c =? 95)%N) s
  && (length s <=? 4300)%nat.

(** [int(value)] on any other text: spaces, underscores between digits,
    digits above ASCII, the interpreter's limit on the number of digits. *)
Variable int_beyond : str -> option Z.

Fixpoint decimal (acc : Z) (s : str) : option Z :=
  match s with
  | [] => Some acc
  | c :: rest =>
      if ascii_digit c
      then decimal (10 * acc + Z.of_N (c - 48)) rest
      else None
  end.

Definition unsigned (s : str) : option Z :=
  match s with
  | [] => None
  | _ :: _ => decimal 0 s
  end.

(** [int(value)], the conversion of a key given as text; [None] stands for
    the [ValueError] of a text that is no numeral.  On plain text a numeral
    is an optional sign and one or more digits. *)
Definition int_of_text (s : str) : option Z :=
  if plain_text s
  then
    match s with
    | c :: rest =>
        if (c =? 45)%N then option_map Z.opp (unsigned rest)
        else if (c =? 43)%N then unsigned rest
        else unsigned s
    | [] => None
    end
  else int_beyond s.

(** ** AddChildNodeViewClass *)

Record AddChildNodeViewClass : Type := mkAddChildView {
  parent_pk : str;
  parent_instance : Node
}.

(** [get_object_or_404(queryset.filter(pk=k))] *)
Definition get_object_or_404 (k : Z) : M Node :=
  fun st =>
    match find_row k st with
    | Some r => (Ok (instance_of r), st)
    | None => (Raise Http404, st)
    end.

(** [object_qs.filter(pk=value)] for a value given as text: the filter
    converts the value to a key when it is built.  A key beyond the range of
    the database's integer column is a key that no row has. *)
Definition filter_pk (value : str) : M Z :=
  match int_of_text value with
  | Some k => ret k
  | None => raise ValueError
  end.

(** [AddChildNodeViewClass.__init__], on the segment of the address that
    names the parent. *)
Definition AddChildNodeViewClass_init (parent_pk : str)
  : M AddChildNodeViewClass :=
  let parent_pk := unquote parent_pk in
  object_qs <- filter_pk parent_pk ;;
  parent_instance <- get_object_or_404 object_qs ;;
  ret (mkAddChildView parent_pk parent_instance).


(** An unsaved instance, as the create views hand it to the form. *)
Definition new_instance : Node := mkNode None [] [] 0.


(** ** Sequences of form saves *)

(** One use of the form: on a new instance, or on a stored node (looked up
    by its key as the edit view does), with any initial value, any values of
    the fields, and either value of [commit]. *)
Inductive SaveOp : Type :=
| CreateOp (form_initial : option Z) (data_name data_aliases : str)
    (data_parent : option Z) (commit : bool)
| EditOp (pk : Z) (form_initial : option Z) (data_name data_aliases : str)
    (data_parent : option Z) (commit : bool).

Definition run_op (op : SaveOp) : M Node :=
  match op with
  | CreateOp i n a p commit =>
      form <- NodeForm_init new_instance i n a p ;;
      NodeForm_save form commit
  | EditOp k i n a p commit =>
      instance <- get_object_or_404 k ;;
      form <- NodeForm_init instance i n a p ;;
      NodeForm_save form commit
  end.

(** The table after a sequence of uses; a use that raises leaves the table
    as it was at the raise and the next use goes on from there. *)
Fixpoint run_ops (ops : list SaveOp) (st : Store) : Store :=
  match ops with
  | [] => st
  | op :: rest => run_ops rest (snd (run_op op st))
  end.

(** A computation that adds no root. *)
Definition adds_no_root {A} (m : M A) : Prop :=
  forall st, (root_count (snd (m st)) <= root_count st)%nat.

(** A computation that only reads the table. *)
Definition reads_only {A} (m : M A) : Prop :=
  forall st, snd (m st) = st.

(** The keys are those the table hands out: positive. *)
Definition keys_positive (st : Store) : Prop :=
  Forall (fun r => 0 < pk r) st.

Definition keeps_keys_positive {A} (m : M A) : Prop :=
  forall st, keys_positive st -> keys_positive (snd (m st)).

(** ** Sample data for the concrete runs *)



(** A framework delete button. *)
Definition sample_delete_button (k : Z) : Button :=
  mkButton "delete" "Delete" "button" "Delete this Topic".

(** Science > (Biology, Physics > Optics), siblings sorted by name. *)
Definition sample_store : Store :=
  [ mkRow 1 (text "Science") [] 0 None;
    mkRow 3 (text "Biology") [] 0 (Some 1);
    mkRow 2 (text "Physics") [] 0 (Some 1);
    mkRow 4 (text "Optics") [] 0 (Some 2) ].

(** The edit form for Optics, with Biology selected as its parent. *)
Definition sample_edit_form : NodeForm :=
  mkNodeForm (mkNode (Some 4) (text "Optics") [] 0) None
    (text "Optics") (text "Light") (Some 3)
    (mkChoiceField false true None Select (Some 2)) "Name".

(** A create form with Physics selected as the parent. *)
Definition sample_create_form : NodeForm :=
  ModelForm_init new_instance None (text "Atoms & Ions") [] (Some 2).

(** Three uses of the form: a create without a parent, a create under
    Biology, and an edit that moves Optics under the root. *)
Definition sample_ops : list SaveOp :=
  [ CreateOp None (text "Zoology") [] None true;
    CreateOp None (text "Zoology") [] (Some 3) true;
    EditOp 4 None (text "Optics") [] (Some 1) true ].

(** ** BasicNodeChoiceField *)

(** The failure of arithmetic on [None]. *)
Inductive TypeError : Type := unsupported_operand.

(** [Node.__str__] *)
Definition Node_str (self : Node) : str := name self.

(** [BasicNodeChoiceField.label_from_instance]: one dash per level below the
    roots, a space, and the label of the framework's choice field, which is
    [str(obj)].  The depth of an instance that was never stored is [None],
    on which the subtraction fails. *)
Definition label_from_instance (st : Store) (obj : Node) : str + TypeError :=
  match get_depth st obj with
  | None => inr unsupported_operand
  | Some depth =>
      let depth_line := repeat 45%N (depth - 1) in
      inl (depth_line ++ [32%N] ++ Node_str obj)
  end.

(** Reading a choice label back: the dashes that open it, the space, the
    rest. *)
Fixpoint leading_dashes (l : str) : nat :=
  match l with
  | c :: rest => if (c =? 45)%N then S (leading_dashes rest) else 0
  | [] => 0
  end.

Definition read_label (l : str) : option (nat * str) :=
  match skipn (leading_dashes l) l with
  | c :: rest =>
      if (c =? 32)%N then Some (S (leading_dashes l), rest) else None
  | [] => None
  end.

(** ** Node.get_as_listing_header and its template *)

(** The context handed to [includes/node_list_header.html]. *)
Record ListingContext : Type := mkListingContext {
  ctx_depth : Z;
  ctx_depth_minus_1 : Z;
  ctx_is_root : bool;
  ctx_name : str
}.

(** What the template writes: the name in bold at 135 percent for a root,
    and otherwise the name behind a spacer with a left margin in em and a
    font size in percent.  [shown] is the value given for [{{ name }}]; its
    escaping is the template engine's. *)
Inductive ListingHeader : Type :=
| RootHeader (shown : str)
| NestedHeader (margin_left_em font_size : Z) (shown : str).

(** [node_list_header.html]:
    {% if is_root %} ... {{ name }} ...
    {% else %} ... margin-left:{{ depth_minus_1 }}em;
      font-size:{% if depth is 1 %}120{% elif depth is 2 %}110
                {% else %}100{% endif %}% ... {{ name }} {% endif %} *)
Definition node_list_header (c : ListingContext) : ListingHeader :=
  if ctx_is_root c
  then RootHeader (ctx_name c)
  else
    NestedHeader (ctx_depth_minus_1 c)
      (if ctx_depth c =? 1 then 120
       else if ctx_depth c =? 2 then 110
       else 100)
      (ctx_name c).

(** [Node.get_as_listing_header] *)
Definition get_as_listing_header (st : Store) (self : Node)
  : ListingHeader + TypeError :=
  match get_depth st self with
  | None => inr unsupported_operand          (* depth - 1 on None *)
  | Some d =>
      let depth := Z.of_nat d in
      inl (node_list_header
             (mkListingContext depth (depth - 1) (is_root st self)
                (name self)))
  end.

(** ** NodeButtonHelper.inspect_button *)

Definition decrement (count : option nat) : option nat :=
  match count with
  | Some n => Some (n - 1)%nat
  | None => None
  end.

Definition may_replace (count : option nat) : bool :=
  match count with
  | Some O => false
  | _ => true
  end.

(** [s.replace(old, new, count)] for a non-empty [old], left to right over
    occurrences that do not overlap; [skip] counts the characters of the
    occurrence just replaced that are still to be passed over, and [count]
    is [None] when no limit is given. *)
Fixpoint replace_from (old new : string) (count : option nat) (skip : nat)
    (s : string) : string :=
  match s with
  | EmptyString => EmptyString
  | String c rest =>
      match skip with
      | S k => replace_from old new count k rest
      | O =>
          if may_replace count && prefix old s
          then (new ++ replace_from old new (decrement count)
                         (String.length old - 1) rest)%string
          else String c (replace_from old new count 0 rest)
      end
  end.

(** [s.replace('', new, count)]: [new] goes before every character and
    after the last one. *)
Fixpoint interleave (new : string) (count : option nat) (s : string)
  : string :=
  if may_replace count
  then
    (new ++ match s with
            | EmptyString => EmptyString
            | String c rest => String c (interleave new (decrement count) rest)
            end)%string
  else s.

(** [str.replace] *)
Definition replace (old new : string) (count : option nat) (s : string)
  : string :=
  match old with
  | EmptyString => interleave new count s
  | String _ _ => replace_from old new count 0 s
  end.

(** [old in s] *)
Fixpoint occurs (old s : string) : bool :=
  prefix old s
  || match s with
     | EmptyString => false
     | String _ rest => occurs old rest
     end.

(** [NodeButtonHelper.inspect_button], on the button that the framework's
    [inspect_button] returns for the same arguments. *)
Definition inspect_button (button : Button) : Button :=
  let label' := replace "Inspect" "Details" None (label button) in
  let title' := replace "Inspect" "Details" (Some 1%nat) label' in
  mkButton (url button) label' (classname button) title'.

(** [c in s] for a single character. *)
Fixpoint has_char (c : ascii) (s : string) : bool :=
  match s with
  | EmptyString => false
  | String a rest => Ascii.eqb a c || has_char c rest
  end.

(** ** Requests of the admin views *)

(** A form save, or the delete view's [instance.delete()] on the stored
    node of a key. *)
Inductive Request : Type :=
| SaveRequest (op : SaveOp)
| DeleteRequest (pk : Z).

Definition run_request (r : Request) : M unit :=
  match r with
  | SaveRequest op => run_op op ;;; ret tt
  | DeleteRequest k =>
      instance <- get_object_or_404 k ;;
      Node_delete instance
  end.

Fixpoint run_requests (rs : list Request) (st : Store) : Store :=
  match rs with
  | [] => st
  | r :: rest => run_requests rest (snd (run_request r st))
  end.

(** The edit view gives its form no initial data of its own. *)
Definition from_view (r : Request) : bool :=
  match r with
  | SaveRequest (EditOp _ (Some _) _ _ _ _) => false
  | _ => true
  end.

(** No two rows share a key; no two rows share a name. *)
Definition keys_unique (st : Store) : Prop := NoDup (map pk st).

Definition names_unique (st : Store) : Prop := NoDup (map row_name st).

(** A computation that keeps a property of the table. *)
Definition keeps {A} (P : Store -> Prop) (m : M A) : Prop :=
  forall st, P st -> P (snd (m st)).

(** Every parent pointer of the table names a row of the table. *)
Definition parents_resolve (st : Store) : bool :=
  forallb
    (fun r =>
       match row_parent r with
       | Some p => match find_row p st with Some _ => true | None => false end
       | None => true
       end)
    st.

(** Requests for the concrete runs: two creates, an edit that moves Optics
    under Biology, a delete of Physics and a delete of the root. *)
Definition sample_requests : list Request :=
  [ SaveRequest (CreateOp None (text "Zoology") [] None true);
    SaveRequest (CreateOp (Some 3) (text "Zoology") [] (Some 3) true);
    SaveRequest (EditOp 4 None (text "Optics") [] (Some 3) true);
    DeleteRequest 2;
    DeleteRequest 1 ].

(** ** The claim about names, in the words of the specification *)

(** "consists only of letters, spaces and '&'" *)
Definition only_letters_spaces_amp (s : str) : bool := forallb name_char s.

Definition starts_with_letter (s : str) : bool :=
  match s with
  | c :: _ => ascii_letter c
  | [] => false
  end.

(** The first character is one that [\w] admits although it is no ASCII
    letter: a digit, an underscore, an alphanumeric above ASCII. *)
Definition starts_with_other_word_char (s : str) : bool :=
  match s with
  | c :: _ => word_char c && negb (ascii_letter c)
  | [] => false
  end.

Definition ends_with_newline (s : str) : bool := (last s 0 =? 10)%N.

(** The characters after the first, without a newline that ends the name. *)
Definition name_body (s : str) : str :=
  match s with
  | [] => []
  | _ :: rest => if ends_with_newline rest then removelast rest else rest
  end.

(** * Field validation of [name] *)

Lemma ascii_letter_word_char (c : N) :
  ascii_letter c = true -> word_char c = true.
Proof.
  unfold word_char, ascii_letter, in_range. intros H.
  destruct (N.ltb_spec c 128) as [Hlt | Hge].
  - rewrite H. reflexivity.
  - exfalso.
    apply orb_true_iff in H.
    destruct H as [H | H]; apply andb_true_iff in H; destruct H as [_ H];
      apply N.leb_le in H; lia.
Qed.

Lemma ascii_letter_name_char (c : N) :
  ascii_letter c = true -> name_char c = true.
Proof. unfold name_char. intros ->. reflexivity. Qed.

(** On a value that does not end with a newline, the tail of the pattern is
    "all characters in the class, and at least one seen". *)
Lemma name_tail_spec (s : str) :
  forall seen,
    ends_with_newline s = false ->
    name_tail seen s
    = (seen || negb (match s with [] => true | _ => false end))
      && forallb name_char s.
Proof.
  induction s as [| c rest IH]; intros seen Hend.
  - simpl. destruct seen; reflexivity.
  - cbn [name_tail forallb]. destruct (name_char c) eqn:Hc.
    + rewrite orb_true_r. cbn [andb].
      destruct rest as [| d rest'].
      * reflexivity.
      * rewrite IH.
        -- reflexivity.
        -- exact Hend.
    + rewrite andb_false_r.
      destruct rest as [| d rest'].
      * unfold ends_with_newline in Hend. cbn [last] in Hend.
        rewrite Hend. rewrite andb_false_r. reflexivity.
      * rewrite andb_false_r. reflexivity.
Qed.

Lemma name_accepted_iff (s : str) :
  name_accepted s = true
  <-> node_name_regex s = true /\ (5 <= length s <= 50)%nat.
Proof.
  unfold name_accepted, name_clean.
  destruct s as [| c rest].
  - simpl. split; [discriminate | intros [H _]; discriminate].
  - cbn [name_validators flat_map].
    unfold node_name_validator, MinLengthValidator, MaxLengthValidator.
    split.
    + destruct (node_name_regex (c :: rest));
        destruct (Nat.ltb_spec (length (c :: rest)) 5) as [Hlo | Hlo];
        destruct (Nat.ltb_spec 50 (length (c :: rest))) as [Hhi | Hhi];
        cbn [app]; intros Hacc; try discriminate.
      split; [reflexivity | lia].
    + intros [Hre Hlen]. rewrite Hre.
      destruct (Nat.ltb_spec (length (c :: rest)) 5) as [Hlo | Hlo];
        destruct (Nat.ltb_spec 50 (length (c :: rest))) as [Hhi | Hhi];
        try lia.
      reflexivity.
Qed.

(** On ASCII the Unicode table is not consulted. *)
Lemma word_char_ascii (c : N) :
  (c < 128)%N ->
  word_char c = ascii_letter c || ascii_digit c || (c =? 95)%N.
Proof.
  intros H. unfold word_char.
  destruct (N.ltb_spec c 128); [reflexivity | lia].
Qed.

(** What the tail of the pattern admits is, up to a newline that ends the
    value, made of characters of the class. *)
Lemma name_tail_body (rest : str) :
  forall seen,
    name_tail seen rest = true ->
    forallb name_char
      (if ends_with_newline rest then removelast rest else rest) = true.
Proof.
  induction rest as [| c rest' IH]; intros seen Htail.
  - reflexivity.
  - cbn [name_tail] in Htail. destruct (name_char c) eqn:Hc.
    + specialize (IH true Htail).
      destruct rest' as [| d rest''].
      * unfold ends_with_newline. cbn [last].
        destruct (N.eqb_spec c 10) as [-> | _]; [discriminate |].
        cbn [forallb]. rewrite Hc. reflexivity.
      * change (ends_with_newline (c :: d :: rest''))
          with (ends_with_newline (d :: rest'')).
        change (removelast (c :: d :: rest''))
          with (c :: removelast (d :: rest'')).
        destruct (ends_with_newline (d :: rest''));
          cbn [forallb]; rewrite Hc; exact IH.
    + apply andb_true_iff in Htail. destruct Htail as [Htail Hnil].
      apply andb_true_iff in Htail. destruct Htail as [_ Hnl].
      destruct rest' as [| d rest'']; [| discriminate].
      unfold ends_with_newline. cbn [last]. rewrite Hnl. reflexivity.
Qed.

(** C5 (amended).  Field validation of [name] rejects a value that is
    shorter than 5 or longer than 50 characters, a value whose first
    character is no word character (a space or ['&'], say), and a value in
    which a character after the first, other than a newline that ends the
    value, is not one of the letters a-z and A-Z, a space or ['&'].  It
    accepts every value of 5 to 50 characters that starts with a letter and
    consists only of such letters, spaces and ['&'].  Hence, on a value that
    does not end with a newline and does not start with one of the other
    characters that the pattern's leading [\w] admits (digit, underscore,
    alphanumeric above ASCII), it accepts the value exactly when the value
    starts with a letter, consists only of letters, spaces and ['&'], and
    has between 5 and 50 characters. *)
Theorem name_validation (s : str) :
  (name_accepted s = true ->
   (5 <= length s <= 50)%nat
   /\ (starts_with_letter s = true \/ starts_with_other_word_char s = true)
   /\ only_letters_spaces_amp (name_body s) = true)
  /\ (starts_with_letter s = true ->
      only_letters_spaces_amp s = true ->
      (5 <= length s <= 50)%nat ->
      name_accepted s = true)
  /\ (ends_with_newline s = false ->
      starts_with_other_word_char s = false ->
      (name_accepted s = true
       <-> starts_with_letter s = true
           /\ only_letters_spaces_amp s = true
           /\ (5 <= length s <= 50)%nat)).
Proof.
  assert (Hnecessary :
            name_accepted s = true ->
            (5 <= length s <= 50)%nat
            /\ (starts_with_letter s = true
                \/ starts_with_other_word_char s = true)
            /\ only_letters_spaces_amp (name_body s) = true).
  { intros H. apply name_accepted_iff in H. destruct H as [Hre Hlen].
    split; [exact Hlen |].
    destruct s as [| c rest]; [discriminate |].
    unfold node_name_regex in Hre. apply andb_true_iff in Hre.
    destruct Hre as [Hw Ht]. split.
    - cbn [starts_with_letter starts_with_other_word_char]. rewrite Hw.
      destruct (ascii_letter c); [left | right]; reflexivity.
    - unfold only_letters_spaces_amp, name_body.
      exact (name_tail_body rest false Ht). }
  assert (Hsufficient :
            starts_with_letter s = true ->
            only_letters_spaces_amp s = true ->
            (5 <= length s <= 50)%nat ->
            name_accepted s = true).
  { intros Hl Hall Hlen. apply name_accepted_iff. split; [| exact Hlen].
    destruct s as [| c rest]; [discriminate |].
    cbn [starts_with_letter] in Hl.
    unfold only_letters_spaces_amp in Hall. cbn [forallb] in Hall.
    apply andb_true_iff in Hall. destruct Hall as [_ Hall].
    unfold node_name_regex. rewrite (ascii_letter_word_char c Hl).
    cbn [andb].
    assert (Hend : ends_with_newline rest = false).
    { unfold ends_with_newline.
      destruct rest as [| d rest'] using rev_ind; [reflexivity |].
      rewrite last_last. rewrite forallb_app in Hall.
      apply andb_true_iff in Hall. destruct Hall as [_ Hd].
      cbn [forallb] in Hd. rewrite andb_true_r in Hd.
      destruct (N.eqb_spec d 10) as [-> | _]; [discriminate | reflexivity]. }
    rewrite name_tail_spec by exact Hend. rewrite Hall.
    destruct rest; [cbn [length] in Hlen; lia | reflexivity]. }
  split; [exact Hnecessary |]. split; [exact Hsufficient |].
  intros Hend Hfirst. split.
  - intros Hacc. destruct (Hnecessary Hacc) as [Hlen [Hstart Hbody]].
    destruct Hstart as [Hl | Ho]; [| congruence].
    split; [exact Hl |]. split; [| exact Hlen].
    destruct s as [| c rest]; [discriminate |].
    cbn [starts_with_letter] in Hl.
    unfold only_letters_spaces_amp in *. cbn [forallb].
    rewrite (ascii_letter_name_char c Hl). cbn [andb].
    unfold name_body in Hbody.
    destruct rest as [| d rest']; [reflexivity |].
    change (ends_with_newline (c :: d :: rest'))
      with (ends_with_newline (d :: rest')) in Hend.
    rewrite Hend in Hbody. exact Hbody.
  - intros [Hl [Hall Hlen]]. exact (Hsufficient Hl Hall Hlen).
Qed.

(** * Sequencing *)

Lemma bind_ok {A B} (m : M A) (k : A -> M B) (st st' : Store) (a : A) :
  m st = (Ok a, st') -> bind m k st = k a st'.
Proof. unfold bind. intros ->. reflexivity. Qed.

Lemma bind_raise {A B} (m : M A) (k : A -> M B) (st st' : Store)
    (e : Exception) :
  m st = (Raise e, st') -> bind m k st = (Raise e, st').
Proof. unfold bind. intros ->. reflexivity. Qed.

(** * The table and the tree *)

Lemma find_row_pk (k : Z) (st : Store) (r : Row) :
  find_row k st = Some r -> pk r = k.
Proof.
  induction st as [| x rest IH]; simpl; [discriminate |].
  destruct (Z.eqb_spec (pk x) k) as [Heq | Hne].
  - intros [= <-]. exact Heq.
  - exact IH.
Qed.

Lemma find_row_In (k : Z) (st : Store) (r : Row) :
  find_row k st = Some r -> In r st.
Proof.
  induction st as [| x rest IH]; simpl; [discriminate |].
  destruct (pk x =? k).
  - intros [= <-]. left. reflexivity.
  - intros H. right. exact (IH H).
Qed.

Lemma find_row_none_iff (k : Z) (st : Store) :
  find_row k st = None <-> forall r, In r st -> pk r <> k.
Proof.
  induction st as [| x rest IH]; simpl.
  - split; [intros _ r [] | reflexivity].
  - destruct (Z.eqb_spec (pk x) k) as [Heq | Hne].
    + split; [discriminate |].
      intros H. exfalso. exact (H x (or_introl eq_refl) Heq).
    + rewrite IH. split.
      * intros H r [<- | Hr]; [exact Hne | exact (H r Hr)].
      * intros H r Hr. exact (H r (or_intror Hr)).
Qed.

(** A root is a stored node without a parent. *)
Lemma is_root_spec (st : Store) (n : Node) :
  is_root st n = true
  <-> exists r, row_for st n = Some r /\ row_parent r = None.
Proof.
  unfold is_root, get_depth.
  destruct (row_for st n) as [r |] eqn:Hrow.
  - assert (Hfuel : exists f, length st = S f).
    { unfold row_for in Hrow. destruct (id n) as [k |]; [| discriminate].
      destruct st as [| x rest]; [discriminate |].
      exists (length rest). reflexivity. }
    destruct Hfuel as [f ->].
    destruct (row_parent r) as [p |] eqn:Hp.
    + cbn [ancestors length]. split.
      * intros H. apply Nat.eqb_eq in H. discriminate.
      * intros [r' [[= <-] Hnone]]. congruence.
    + cbn [ancestors length]. split.
      * intros _. exists r. split; [reflexivity | exact Hp].
      * reflexivity.
  - split; [discriminate |]. intros [r [H _]]. discriminate.
Qed.

Lemma is_root_unsaved (st : Store) (n : Node) :
  id n = None -> is_root st n = false.
Proof.
  intros H. unfold is_root, get_depth, row_for. rewrite H. reflexivity.
Qed.

(** The key of the next row is positive and belongs to no row. *)
Lemma next_pk_bound (st : Store) :
  forall r, In r st -> pk r < next_pk st.
Proof.
  unfold next_pk. induction st as [| x rest IH]; intros r Hr.
  - destruct Hr.
  - cbn [fold_right]. destruct Hr as [<- | Hr].
    + lia.
    + specialize (IH r Hr). lia.
Qed.

Lemma next_pk_positive (st : Store) : 0 < next_pk st.
Proof.
  unfold next_pk. induction st as [| x rest IH]; cbn [fold_right]; lia.
Qed.

Lemma next_pk_fresh (st : Store) : find_row (next_pk st) st = None.
Proof.
  apply find_row_none_iff. intros r Hr.
  pose proof (next_pk_bound st r Hr). lia.
Qed.

(** Rows found after the sorted insertion of a row with a new key. *)
Lemma find_row_insert_sorted (new : Row) (st : Store) (k : Z) :
  find_row (pk new) st = None ->
  find_row k (insert_sorted new st)
  = if pk new =? k then Some new else find_row k st.
Proof.
  induction st as [| x rest IH]; intros Hfresh.
  - reflexivity.
  - cbn [find_row] in Hfresh.
    destruct (Z.eqb_spec (pk x) (pk new)) as [Heq | Hne]; [discriminate |].
    cbn [insert_sorted].
    destruct (option_Z_eqb (row_parent x) (row_parent new) && sorts_after x new).
    + reflexivity.
    + cbn [find_row]. rewrite (IH Hfresh).
      destruct (Z.eqb_spec (pk x) k) as [Hx | Hx];
        destruct (Z.eqb_spec (pk new) k) as [Hn | Hn];
        try reflexivity.
      congruence.
Qed.

Lemma find_row_filter_other (k j : Z) (st : Store) :
  k <> j ->
  find_row k (filter (fun x => negb (pk x =? j)) st) = find_row k st.
Proof.
  intros Hne. induction st as [| x rest IH]; [reflexivity |].
  cbn [filter find_row].
  destruct (Z.eqb_spec (pk x) j) as [Hj | Hj]; cbn [negb].
  - destruct (Z.eqb_spec (pk x) k) as [Hk | Hk]; [congruence | exact IH].
  - cbn [find_row]. rewrite IH. reflexivity.
Qed.

Lemma find_row_filter_same (j : Z) (st : Store) :
  find_row j (filter (fun x => negb (pk x =? j)) st) = None.
Proof.
  apply find_row_none_iff. intros r Hr.
  apply filter_In in Hr. destruct Hr as [_ Hr].
  destruct (Z.eqb_spec (pk r) j); [discriminate | assumption].
Qed.

(** [Model.save()] rewrites columns only: keys, parent pointers and the
    order of the rows stay. *)
Lemma save_row_pk (self : Node) (r : Row) : pk (save_row self r) = pk r.
Proof. unfold save_row. destruct (option_Z_eqb _ _); reflexivity. Qed.

Lemma save_row_parent (self : Node) (r : Row) :
  row_parent (save_row self r) = row_parent r.
Proof. unfold save_row. destruct (option_Z_eqb _ _); reflexivity. Qed.

Lemma find_row_saved (self : Node) (k : Z) (st : Store) :
  find_row k (map (save_row self) st)
  = option_map (save_row self) (find_row k st).
Proof.
  induction st as [| x rest IH]; [reflexivity |].
  cbn [map find_row]. rewrite save_row_pk.
  destruct (pk x =? k); [reflexivity | exact IH].
Qed.

Lemma ancestors_saved (self : Node) (st : Store) :
  forall fuel p,
    ancestors fuel (map (save_row self) st) p = ancestors fuel st p.
Proof.
  induction fuel as [| f IH]; intros p; [reflexivity |].
  destruct p as [k |]; [| reflexivity].
  cbn [ancestors]. rewrite find_row_saved.
  destruct (find_row k st) as [r |]; cbn [option_map]; [| reflexivity].
  rewrite save_row_parent, IH. reflexivity.
Qed.

Lemma Model_save_stored (self : Node) (st : Store) (r : Row) :
  row_for st self = Some r ->
  Model_save self st = (Ok tt, map (save_row self) st).
Proof. unfold Model_save. intros ->. reflexivity. Qed.

(** * Node.delete *)

Lemma MP_Node_delete_ok (self : Node) (st : Store) :
  fst (MP_Node_delete self st) = Ok tt.
Proof. unfold MP_Node_delete. destruct (id self); reflexivity. Qed.

Lemma MP_Node_delete_gone (self : Node) (st : Store) :
  row_for (snd (MP_Node_delete self st)) self = None.
Proof.
  unfold MP_Node_delete, row_for.
  destruct (id self) as [k |]; [| reflexivity].
  cbn [snd]. apply find_row_none_iff. intros r Hr.
  apply filter_In in Hr. destruct Hr as [_ Hr].
  unfold in_branch in Hr.
  destruct (Z.eqb_spec (pk r) k); [discriminate | assumption].
Qed.

(** C1.  [Node.delete()] raises [PermissionDenied] exactly on a root.  On a
    root it raises with the table untouched; on any other node it is the
    tree library's delete, which returns normally and leaves no row of the
    node. *)
Theorem Node_delete_root_guard (st : Store) (self : Node) :
  ((exists msg, fst (Node_delete self st) = Raise (PermissionDenied msg))
   <-> is_root st self = true)
  /\ (is_root st self = true ->
      Node_delete self st
      = (Raise (PermissionDenied "Cannot delete root Topic."), st))
  /\ (is_root st self = false ->
      Node_delete self st = MP_Node_delete self st
      /\ fst (Node_delete self st) = Ok tt
      /\ row_for (snd (Node_delete self st)) self = None).
Proof.
  unfold Node_delete, bind, get_store, raise.
  destruct (is_root st self) eqn:Hroot.
  - split; [| split].
    + split; [reflexivity |]. intros _.
      exists "Cannot delete root Topic."%string. reflexivity.
    + reflexivity.
    + discriminate.
  - split; [| split].
    + split; [| discriminate].
      intros [msg H]. rewrite MP_Node_delete_ok in H. discriminate.
    + discriminate.
    + intros _. split; [reflexivity |].
      split; [apply MP_Node_delete_ok | apply MP_Node_delete_gone].
Qed.

(** * NodeButtonHelper.delete_button *)

(** C7.  For the row of a stored node, [delete_button] returns no button
    exactly when the node is a root, and the framework's delete button for
    every other node. *)
Theorem delete_button_hidden_for_root (st : Store) (k : Z) (r : Row) :
  find_row k st = Some r ->
  delete_button k st
  = (Ok (if is_root st (instance_of r)
         then None
         else Some (ButtonHelper_delete_button k)), st)
  /\ (fst (delete_button k st) = Ok None
      <-> is_root st (instance_of r) = true).
Proof.
  intros Hrow.
  unfold delete_button, bind, objects_get, get_store, ret.
  rewrite Hrow.
  destruct (is_root st (instance_of r)); cbn [fst].
  - split; [reflexivity |]. split; reflexivity.
  - split; [reflexivity |]. split; discriminate.
Qed.

(** * The add-child view *)


(** * NodeForm *)

Lemma errors_nil (st : Store) (f : NodeForm) :
  errors st f = [] ->
  name_clean (data_name f) = []
  /\ name_taken st f = false
  /\ (length (data_aliases f) <= 255)%nat
  /\ exists v, clean_parent st f = inl v.
Proof.
  unfold errors. intros H.
  apply app_eq_nil in H. destruct H as [Hname H].
  apply app_eq_nil in H. destruct H as [Htaken H].
  apply app_eq_nil in H. destruct H as [Hal Hpar].
  split; [exact Hname |].
  split; [destruct (name_taken st f); [discriminate | reflexivity] |].
  split.
  - unfold MaxLengthValidator in Hal.
    destruct (Nat.ltb_spec 255 (length (data_aliases f))); [discriminate | lia].
  - destruct (clean_parent st f) as [v | es] eqn:Hclean;
      [exists v; reflexivity |].
    exfalso. subst es. unfold clean_parent in Hclean.
    destruct (if disabled (parent f)
              then get_initial_for_field f else data_parent f) as [k |].
    + destruct (find_row k st); discriminate.
    + destruct (required (parent f)); discriminate.
Qed.

(** A cleaned parent is a row of the table. *)
Lemma clean_parent_stored (st : Store) (f : NodeForm) (k : Z) :
  clean_parent st f = inl (Some k) -> exists r, find_row k st = Some r.
Proof.
  unfold clean_parent.
  destruct (if disabled (parent f)
            then get_initial_for_field f else data_parent f) as [j |].
  - destruct (find_row j st) as [r |] eqn:Hr; [| discriminate].
    intros [= <-]. exists r. exact Hr.
  - destruct (required (parent f)); discriminate.
Qed.

(** The two reads that open [save]. *)
Lemma NodeForm_save_valid (st : Store) (f : NodeForm) (commit : bool)
    (v : option Z) :
  errors st f = [] ->
  clean_parent st f = inl v ->
  NodeForm_save f commit st
  = (if negb commit
     then ret (construct_instance f)
     else
       match id (construct_instance f) with
       | None =>
           st' <- get_store ;;
           if (count st' =? 0)%nat
           then add_root (construct_instance f)
           else on_parent v (fun p => add_child p (construct_instance f))
       | Some _ =>
           Model_save (construct_instance f) ;;;
           current <- get_parent (construct_instance f) ;;
           if negb (option_Z_eqb current v)
           then on_parent v
                  (fun p => move (construct_instance f) p sorted_child) ;;;
                ret (construct_instance f)
           else ret (construct_instance f)
       end) st.
Proof.
  intros Herr Hclean.
  unfold NodeForm_save, ModelForm_save_uncommitted, cleaned_data_parent.
  unfold bind at 1. unfold bind at 1. unfold get_store at 1.
  cbv beta iota. rewrite Herr.
  unfold ret at 1. unfold bind at 1. unfold bind at 1. unfold get_store at 1.
  cbv beta iota. rewrite Hclean.
  unfold ret at 1.
  reflexivity.
Qed.

Lemma NodeForm_save_invalid (st : Store) (f : NodeForm) (commit : bool) :
  errors st f <> [] ->
  NodeForm_save f commit st = (Raise ValueError, st).
Proof.
  intros Herr.
  unfold NodeForm_save, ModelForm_save_uncommitted, bind, get_store, raise.
  destruct (errors st f); [contradiction | reflexivity].
Qed.

(** C8.  [save(commit=False)] leaves the table exactly as it was: on a form
    without errors it returns the instance carrying the cleaned values, with
    the key it had (none for a new instance), and on a form with errors it
    raises. *)
Theorem NodeForm_save_without_commit (st : Store) (f : NodeForm) :
  NodeForm_save f false st
  = (match errors st f with
     | [] => Ok (construct_instance f)
     | _ :: _ => Raise ValueError
     end, st)
  /\ snd (NodeForm_save f false st) = st
  /\ id (construct_instance f) = id (instance f).
Proof.
  assert (H : NodeForm_save f false st
              = (match errors st f with
                 | [] => Ok (construct_instance f)
                 | _ :: _ => Raise ValueError
                 end, st)).
  { destruct (errors st f) as [| e es] eqn:Herr.
    - destruct (errors_nil st f Herr) as [_ [_ [_ [v Hv]]]].
      rewrite (NodeForm_save_valid st f false v Herr Hv). reflexivity.
    - apply NodeForm_save_invalid. rewrite Herr. discriminate. }
  split; [exact H |]. split; [rewrite H; reflexivity | reflexivity].
Qed.

(** A node with a parent to report is stored, under a positive key. *)
Lemma stored_key_positive (st : Store) (n : Node) (cur : option Z) :
  keys_positive st ->
  get_parent n st = (Ok cur, st) ->
  exists k, id n = Some k /\ 0 < k.
Proof.
  intros Hkeys Hpar. unfold get_parent, row_for in Hpar.
  destruct (id n) as [k |]; [| discriminate].
  destruct (find_row k st) as [r |] eqn:Hr; [| discriminate].
  exists k. split; [reflexivity |].
  rewrite <- (find_row_pk k st r Hr).
  unfold keys_positive in Hkeys. rewrite Forall_forall in Hkeys.
  apply Hkeys. exact (find_row_In k st r Hr).
Qed.

(** C9.  A form constructed for a root, or while the table is empty, has its
    [parent] field disabled, not required, hidden, with the empty label
    ['N/A - Root Node'], and [' (Root)'] appended to the label of [name].
    A form constructed for any other stored node has the node's current
    parent as the initial value of [parent]; the keys of stored nodes are
    those the table hands out, which are positive. *)
Theorem NodeForm_init_parent_field (st : Store) (inst : Node)
    (i : option Z) (n a : str) (p : option Z) :
  (is_root st inst = true \/ count st = 0%nat ->
   exists f,
     NodeForm_init inst i n a p st = (Ok f, st)
     /\ disabled (parent f) = true
     /\ required (parent f) = false
     /\ widget (parent f) = HiddenInput
     /\ empty_label (parent f) = Some "N/A - Root Node"%string
     /\ name_label f
        = (name_label (ModelForm_init inst i n a p) ++ " (Root)")%string)
  /\ (forall cur,
        keys_positive st ->
        is_root st inst = false ->
        get_parent inst st = (Ok cur, st) ->
        exists f,
          NodeForm_init inst i n a p st = (Ok f, st)
          /\ initial (parent f) = cur
          /\ disabled (parent f) = false
          /\ required (parent f) = true).
Proof.
  split.
  - intros Hcase.
    assert (Hcond : is_root st inst || (count st =? 0)%nat = true).
    { destruct Hcase as [-> | ->]; [reflexivity | apply orb_true_r]. }
    unfold NodeForm_init, bind, get_store, ret. rewrite Hcond.
    eexists. split; [reflexivity |]. repeat split.
  - intros cur Hkeys Hroot Hpar.
    destruct (stored_key_positive st inst cur Hkeys Hpar) as [k [Hid Hk]].
    assert (Hcount : (count st =? 0)%nat = false).
    { destruct st as [| x rest]; [| reflexivity].
      unfold get_parent, row_for in Hpar. rewrite Hid in Hpar.
      discriminate. }
    unfold NodeForm_init, bind, get_store, ret.
    rewrite Hroot, Hcount, Hid. cbn [orb truthy].
    destruct (Z.eqb_spec k 0) as [Hz | _]; [lia |].
    cbn [negb]. rewrite Hpar.
    eexists. split; [reflexivity |]. repeat split.
Qed.

Lemma In_insert_sorted (new : Row) (st : Store) :
  In new (insert_sorted new st).
Proof.
  induction st as [| x rest IH]; cbn [insert_sorted].
  - left. reflexivity.
  - destruct (option_Z_eqb (row_parent x) (row_parent new) && sorts_after x new).
    + left. reflexivity.
    + right. exact IH.
Qed.

Lemma option_Z_eqb_refl (a : option Z) : option_Z_eqb a a = true.
Proof. destruct a as [x |]; [apply Z.eqb_refl | reflexivity]. Qed.

Lemma option_Z_eqb_eq (a b : option Z) : option_Z_eqb a b = true <-> a = b.
Proof.
  destruct a as [x |], b as [y |]; cbn [option_Z_eqb].
  - rewrite Z.eqb_eq. split; [intros ->; reflexivity | intros [= ->]; reflexivity].
  - split; discriminate.
  - split; discriminate.
  - split; reflexivity.
Qed.

(** The new instance under its parent, after [add_child]. *)
Lemma add_child_attached (st : Store) (k : Z) (prow : Row) (n : Node) :
  id n = None ->
  find_row k st = Some prow ->
  let node := with_id (next_pk st) n in
  let st' := insert_sorted (row_of (next_pk st) (Some k) n) st in
  add_child k n st = (Ok node, st')
  /\ get_parent node st' = (Ok (Some k), st')
  /\ find_row k st' = Some prow
  /\ In (row_of (next_pk st) (Some k) n) (get_children k st').
Proof.
  intros Hid Hk node st'.
  assert (Hne : next_pk st <> k).
  { pose proof (next_pk_fresh st) as Hf. intros Heq. congruence. }
  assert (Hnew : find_row (next_pk st) st' = Some (row_of (next_pk st) (Some k) n)).
  { unfold st'. rewrite find_row_insert_sorted by apply next_pk_fresh.
    cbn [row_of pk]. rewrite Z.eqb_refl. reflexivity. }
  assert (Hpar : find_row k st' = Some prow).
  { unfold st'. rewrite find_row_insert_sorted by apply next_pk_fresh.
    cbn [row_of pk].
    destruct (Z.eqb_spec (next_pk st) k); [contradiction | exact Hk]. }
  split; [| split; [| split]].
  - unfold add_child, add_sorted. rewrite Hid. reflexivity.
  - unfold get_parent, row_for, node. cbn [with_id id].
    rewrite Hnew. cbn [row_of row_parent]. rewrite Hpar. reflexivity.
  - exact Hpar.
  - unfold get_children, siblings_under. apply filter_In.
    split; [apply In_insert_sorted | apply option_Z_eqb_refl].
Qed.

(** The form that [__init__] builds while the table is empty. *)
Lemma NodeForm_init_empty (inst : Node) (i : option Z) (n a : str)
    (p : option Z) :
  NodeForm_init inst i n a p []
  = (Ok (set_name_label
           (set_parent (ModelForm_init inst i n a p)
              (mkChoiceField true false (Some "N/A - Root Node"%string)
                 HiddenInput None))
           "Name (Root)"), []).
Proof.
  unfold NodeForm_init, bind, get_store, ret.
  cbn [count length Nat.eqb]. rewrite orb_true_r. reflexivity.
Qed.

(** C2.  While the table is empty, saving a form for a new instance adds the
    instance as the root, whatever the form holds for [parent]: the result
    is determined by the instance's cleaned columns alone, and forms that
    differ only in the submitted parent give the same result. *)
Theorem first_node_becomes_root (st : Store) :
  count st = 0%nat ->
  (forall f,
     id (instance f) = None ->
     errors st f = [] ->
     let node := with_id 1 (construct_instance f) in
     let st' := [row_of 1 None (construct_instance f)] in
     NodeForm_save f true st = (Ok node, st')
     /\ is_root st' node = true
     /\ get_parent node st' = (Ok None, st'))
  /\ (forall inst i n a p p',
        id inst = None ->
        (form <- NodeForm_init inst i n a p ;; NodeForm_save form true) st
        = (form <- NodeForm_init inst i n a p' ;; NodeForm_save form true) st)
  /\ (forall n a p,
        name_clean n = [] ->
        (length a <= 255)%nat ->
        run_op (CreateOp None n a p true) st
        = (Ok (mkNode (Some 1) n a 0), [mkRow 1 n a 0 None])).
Proof.
  intros Hcount.
  destruct st as [| x rest]; [clear Hcount | discriminate].
  assert (Hsave : forall f,
             id (instance f) = None ->
             errors [] f = [] ->
             NodeForm_save f true []
             = (Ok (with_id 1 (construct_instance f)),
                [row_of 1 None (construct_instance f)])).
  { intros f Hid Herr.
    destruct (errors_nil [] f Herr) as [_ [_ [_ [v Hv]]]].
    assert (Hci : id (construct_instance f) = None) by exact Hid.
    rewrite (NodeForm_save_valid [] f true v Herr Hv).
    cbn [negb]. rewrite Hci.
    unfold bind, get_store, add_root, add_sorted. rewrite Hci.
    reflexivity. }
  split; [| split].
  - intros f Hid Herr node st'.
    split; [exact (Hsave f Hid Herr) |]. split; reflexivity.
  - intros inst i n a p p' Hid.
    rewrite (bind_ok _ _ _ _ _ (NodeForm_init_empty inst i n a p)).
    rewrite (bind_ok _ _ _ _ _ (NodeForm_init_empty inst i n a p')).
    match goal with
    | |- NodeForm_save ?f1 true [] = NodeForm_save ?f2 true [] =>
        assert (Herrs : errors [] f1 = errors [] f2) by reflexivity;
        destruct (errors [] f1) as [| e es] eqn:Herr1
    end.
    + rewrite Hsave; [| exact Hid | exact Herr1].
      rewrite Hsave; [| exact Hid | symmetry; exact Herrs].
      reflexivity.
    + rewrite NodeForm_save_invalid by (rewrite Herr1; discriminate).
      rewrite NodeForm_save_invalid by (rewrite <- Herrs; discriminate).
      reflexivity.
  - intros n a p Hname Hal.
    unfold run_op.
    rewrite (bind_ok _ _ _ _ _ (NodeForm_init_empty new_instance None n a p)).
    rewrite Hsave.
    + reflexivity.
    + reflexivity.
    + unfold errors. cbn [data_name set_name_label set_parent ModelForm_init
        data_aliases].
      rewrite Hname. cbn [name_taken existsb app].
      unfold MaxLengthValidator.
      destruct (Nat.ltb_spec 255 (length a)); [lia |].
      reflexivity.
Qed.

(** C3.  While the table holds a node, the form for a new instance keeps
    its [parent] field required, without an empty choice: a submission
    without a parent is refused, and a form without errors has a stored
    node selected, under which the new instance is added as a child. *)
Theorem second_node_requires_parent (st : Store) (inst : Node)
    (i : option Z) (n a : str) (p : option Z) :
  id inst = None ->
  count st <> 0%nat ->
  let f := ModelForm_init inst i n a p in
  NodeForm_init inst i n a p st = (Ok f, st)
  /\ required (parent f) = true
  /\ empty_label (parent f) = None
  /\ disabled (parent f) = false
  /\ (p = None -> NodeForm_save f true st = (Raise ValueError, st))
  /\ (errors st f = [] ->
      exists k prow,
        p = Some k
        /\ find_row k st = Some prow
        /\ let node := with_id (next_pk st) (construct_instance f) in
           let new := row_of (next_pk st) (Some k) (construct_instance f) in
           let st' := insert_sorted new st in
           NodeForm_save f true st = (Ok node, st')
           /\ get_parent node st' = (Ok (Some k), st')
           /\ find_row k st' = Some prow
           /\ In new (get_children k st')).
Proof.
  intros Hid Hcount f.
  assert (Hc : (count st =? 0)%nat = false) by (apply Nat.eqb_neq; exact Hcount).
  split; [| split; [| split; [| split; [| split]]]]; try reflexivity.
  - unfold NodeForm_init, bind, get_store, ret.
    rewrite (is_root_unsaved st inst Hid), Hc, Hid. reflexivity.
  - intros ->. apply NodeForm_save_invalid.
    unfold errors, clean_parent. cbn [f ModelForm_init parent disabled
      parent_declared data_parent required].
    intros H. apply app_eq_nil in H. destruct H as [_ H].
    apply app_eq_nil in H. destruct H as [_ H].
    apply app_eq_nil in H. destruct H as [_ H]. discriminate.
  - intros Herr.
    destruct (errors_nil st f Herr) as [_ [_ [_ [v Hv]]]].
    assert (Hp : v = p /\ exists k, p = Some k).
    { unfold clean_parent in Hv. cbn [f ModelForm_init parent disabled
        parent_declared data_parent required] in Hv.
      destruct p as [k |].
      - destruct (find_row k st); [| discriminate].
        injection Hv as <-. split; [reflexivity | exists k; reflexivity].
      - discriminate. }
    destruct Hp as [-> [k ->]].
    destruct (clean_parent_stored st f k Hv) as [prow Hrow].
    exists k, prow. split; [reflexivity |]. split; [exact Hrow |].
    intros node new st'.
    assert (Hci : id (construct_instance f) = None) by exact Hid.
    destruct (add_child_attached st k prow (construct_instance f) Hci Hrow)
      as [Hadd [Hget [Hkeep Hin]]].
    split; [| split; [exact Hget | split; [exact Hkeep | exact Hin]]].
    rewrite (NodeForm_save_valid st f true (Some k) Herr Hv).
    cbn [negb]. rewrite Hci.
    unfold bind, get_store. rewrite Hc. cbn [on_parent]. exact Hadd.
Qed.

(** * Sibling order *)

Lemma siblings_insert_sorted (new : Row) (st : Store) :
  siblings_under (row_parent new) (insert_sorted new st)
  = place_sorted new (siblings_under (row_parent new) st).
Proof.
  unfold siblings_under.
  induction st as [| x rest IH].
  - cbn [insert_sorted filter place_sorted].
    rewrite option_Z_eqb_refl. reflexivity.
  - cbn [insert_sorted filter].
    destruct (option_Z_eqb (row_parent x) (row_parent new)) eqn:Hsame;
      cbn [andb].
    + destruct (sorts_after x new) eqn:Hafter.
      * cbn [filter place_sorted].
        rewrite option_Z_eqb_refl, Hsame, Hafter. reflexivity.
      * cbn [filter place_sorted]. rewrite Hsame, Hafter, IH. reflexivity.
    + cbn [filter]. rewrite Hsame. exact IH.
Qed.

Lemma siblings_insert_other (new : Row) (q : option Z) (st : Store) :
  option_Z_eqb (row_parent new) q = false ->
  siblings_under q (insert_sorted new st) = siblings_under q st.
Proof.
  intros Hq. unfold siblings_under.
  induction st as [| x rest IH].
  - cbn [insert_sorted filter]. rewrite Hq. reflexivity.
  - cbn [insert_sorted].
    destruct (option_Z_eqb (row_parent x) (row_parent new) && sorts_after x new).
    + cbn [filter]. rewrite Hq. reflexivity.
    + cbn [filter]. rewrite IH. reflexivity.
Qed.

Lemma siblings_filter (P : Row -> bool) (q : option Z) (st : Store) :
  siblings_under q (filter P st) = filter P (siblings_under q st).
Proof.
  unfold siblings_under.
  induction st as [| x rest IH]; [reflexivity |].
  cbn [filter].
  destruct (P x) eqn:HP; destruct (option_Z_eqb (row_parent x) q) eqn:Hq;
    cbn [filter]; rewrite ?HP, ?Hq, IH; reflexivity.
Qed.

Lemma siblings_saved (self : Node) (q : option Z) (st : Store) :
  siblings_under q (map (save_row self) st)
  = map (save_row self) (siblings_under q st).
Proof.
  unfold siblings_under.
  induction st as [| x rest IH]; [reflexivity |].
  cbn [map filter]. rewrite save_row_parent.
  destruct (option_Z_eqb (row_parent x) q); cbn [map]; rewrite IH; reflexivity.
Qed.

Lemma place_sorted_length (new : Row) (sibs : list Row) :
  length (place_sorted new sibs) = S (length sibs).
Proof.
  induction sibs as [| r rest IH]; [reflexivity |].
  cbn [place_sorted]. destruct (sorts_after r new); cbn [length].
  - reflexivity.
  - rewrite IH. reflexivity.
Qed.

(** The sorted position: every sibling before the new row may stand before
    it, and the sibling right after it sorts after it. *)
Lemma place_sorted_spec (new : Row) (sibs : list Row) :
  exists before after,
    sibs = before ++ after
    /\ place_sorted new sibs = before ++ new :: after
    /\ Forall (fun r => in_order r new) before
    /\ match after with
       | [] => True
       | r :: _ => sorts_after r new = true
       end.
Proof.
  induction sibs as [| r rest IH].
  - exists [], []. repeat split. constructor.
  - cbn [place_sorted]. destruct (sorts_after r new) eqn:Hafter.
    + exists [], (r :: rest). repeat split; [constructor | exact Hafter].
    + destruct IH as [before [after [Hsplit [Hplace [Hbefore Hnext]]]]].
      exists (r :: before), after. cbn [app].
      rewrite Hplace, <- Hsplit.
      repeat split; [| exact Hnext].
      constructor; [exact Hafter | exact Hbefore].
Qed.

Lemma str_gtb_asym (a : str) :
  forall b, str_gtb a b = true -> str_gtb b a = false.
Proof.
  induction a as [| x a' IH]; intros b H.
  - discriminate.
  - destruct b as [| y b']; [reflexivity |].
    cbn [str_gtb] in *.
    destruct (N.ltb_spec y x) as [Hyx | Hyx].
    + destruct (N.ltb_spec x y) as [Hxy | Hxy]; [lia |].
      reflexivity.
    + destruct (N.ltb_spec x y) as [Hxy | Hxy]; [discriminate |].
      apply IH. exact H.
Qed.

Lemma sorts_after_asym (a b : Row) :
  sorts_after a b = true -> in_order b a.
Proof.
  unfold in_order, sorts_after. intros H.
  apply orb_true_iff in H. destruct H as [H | H].
  - apply Z.ltb_lt in H.
    destruct (Z.ltb_spec (row_order a) (row_order b)); [lia |].
    destruct (Z.eqb_spec (row_order b) (row_order a)); [lia |].
    reflexivity.
  - apply andb_true_iff in H. destruct H as [Heq Hgt].
    apply Z.eqb_eq in Heq.
    destruct (Z.ltb_spec (row_order a) (row_order b)); [lia |].
    rewrite (str_gtb_asym _ _ Hgt). apply andb_false_r.
Qed.

(** Sorted insertion keeps sorted siblings sorted. *)
Lemma place_sorted_sorted (new : Row) (sibs : list Row) :
  Sorted in_order sibs -> Sorted in_order (place_sorted new sibs).
Proof.
  induction sibs as [| r rest IH]; intros Hs.
  - repeat constructor.
  - cbn [place_sorted]. destruct (sorts_after r new) eqn:Hafter.
    + constructor; [exact Hs |].
      constructor. apply sorts_after_asym. exact Hafter.
    + inversion Hs as [| ? ? Hrest Hhd]; subst.
      constructor; [exact (IH Hrest) |].
      destruct rest as [| r' rest'].
      * constructor. exact Hafter.
      * cbn [place_sorted]. destruct (sorts_after r' new).
        -- constructor. exact Hafter.
        -- constructor. inversion Hhd; subst. assumption.
Qed.

(** * Editing a stored node *)

Lemma get_parent_row (st : Store) (n : Node) (cur : option Z) :
  get_parent n st = (Ok cur, st) ->
  exists r, row_for st n = Some r /\ row_parent r = cur.
Proof.
  unfold get_parent.
  destruct (row_for st n) as [r |]; [| discriminate].
  destruct (row_parent r) as [p |] eqn:Hp.
  - destruct (find_row p st); [| discriminate].
    intros [= <-]. exists r. split; [reflexivity | exact Hp].
  - intros [= <-]. exists r. split; [reflexivity | exact Hp].
Qed.

Lemma get_parent_saved (self n : Node) (st : Store) (cur : option Z) :
  get_parent n st = (Ok cur, st) ->
  get_parent n (map (save_row self) st) = (Ok cur, map (save_row self) st).
Proof.
  unfold get_parent, row_for.
  destruct (id n) as [k |]; [| discriminate].
  rewrite find_row_saved.
  destruct (find_row k st) as [r |]; [| discriminate].
  cbn [option_map]. rewrite save_row_parent.
  destruct (row_parent r) as [p |].
  - rewrite find_row_saved.
    destruct (find_row p st); [| discriminate].
    intros [= <-]. reflexivity.
  - intros [= <-]. reflexivity.
Qed.

Lemma in_branch_saved (self : Node) (st : Store) (k : Z) (r : Row) :
  in_branch (map (save_row self) st) k (save_row self r) = in_branch st k r.
Proof.
  unfold in_branch, is_descendant_of.
  rewrite save_row_pk, save_row_parent, length_map, ancestors_saved.
  reflexivity.
Qed.

(** C4 (amended).  Saving a form without errors for a stored node writes the
    cleaned columns to the node's row.  When the selected parent is the
    node's current parent nothing else happens: keys, parent pointers and
    the order of the rows are as before.  When it differs, the move to the
    sorted-child position of the selected parent is attempted: for a
    selected parent other than the node itself, the tree library refuses
    the move when the selected parent is one of the node's descendants,
    leaving the node under its current parent, and otherwise the node
    becomes a child of the selected parent, placed before the first of the
    other children that sorts after it, so that sorted children stay
    sorted. *)
Theorem edit_moves_iff_parent_differs (st : Store) (f : NodeForm) (k : Z)
    (cur v : option Z) :
  id (instance f) = Some k ->
  errors st f = [] ->
  clean_parent st f = inl v ->
  get_parent (instance f) st = (Ok cur, st) ->
  let node := construct_instance f in
  let st1 := map (save_row node) st in
  row_for st1 node = Some (row_of k cur node)
  /\ (cur = v ->
      NodeForm_save f true st = (Ok node, st1)
      /\ map pk st1 = map pk st
      /\ map row_parent st1 = map row_parent st)
  /\ (cur <> v ->
      forall t trow,
        v = Some t ->
        t <> k ->
        find_row t st = Some trow ->
        if is_descendant_of st trow k
        then NodeForm_save f true st = (Raise InvalidMoveToDescendant, st1)
             /\ get_parent node st1 = (Ok cur, st1)
        else
          let moved := row_of k (Some t) node in
          let others :=
            filter (fun x => negb (pk x =? k)) (get_children t st1) in
          let st2 :=
            insert_sorted moved (filter (fun x => negb (pk x =? k)) st1) in
          NodeForm_save f true st = (Ok node, st2)
          /\ get_parent node st2 = (Ok (Some t), st2)
          /\ get_children t st2 = place_sorted moved others
          /\ (Sorted in_order others -> Sorted in_order (get_children t st2))).
Proof.
  intros Hid Herr Hclean Hpar node st1.
  assert (Hnid : id node = Some k) by exact Hid.
  assert (Hpar' : get_parent node st = (Ok cur, st)).
  { unfold get_parent, row_for in *. rewrite Hnid. rewrite Hid in Hpar.
    exact Hpar. }
  destruct (get_parent_row st node cur Hpar') as [r [Hrow Hrp]].
  assert (Hrk : find_row k st = Some r).
  { unfold row_for in Hrow. rewrite Hnid in Hrow. exact Hrow. }
  assert (Hpk : pk r = k) by exact (find_row_pk k st r Hrk).
  assert (Hsaved : save_row node r = row_of k cur node).
  { unfold save_row. rewrite Hnid, Hpk. cbn [option_Z_eqb].
    rewrite Z.eqb_refl, Hrp. reflexivity. }
  assert (Hrow1 : row_for st1 node = Some (row_of k cur node)).
  { unfold row_for, st1. rewrite Hnid, find_row_saved, Hrk.
    cbn [option_map]. rewrite Hsaved. reflexivity. }
  assert (Hsave1 : Model_save node st = (Ok tt, st1))
    by exact (Model_save_stored node st r Hrow).
  assert (Hpar1 : get_parent node st1 = (Ok cur, st1))
    by exact (get_parent_saved node node st cur Hpar').
  assert (Hstart : NodeForm_save f true st
                   = (if negb (option_Z_eqb cur v)
                      then on_parent v (fun p => move node p sorted_child) ;;;
                           ret node
                      else ret node) st1).
  { rewrite (NodeForm_save_valid st f true v Herr Hclean).
    cbn [negb]. fold node. rewrite Hnid.
    rewrite (bind_ok _ _ _ _ _ Hsave1).
    rewrite (bind_ok _ _ _ _ _ Hpar1). reflexivity. }
  split; [exact Hrow1 |]. split.
  - intros Heq.
    rewrite Hstart.
    rewrite (proj2 (option_Z_eqb_eq cur v) Heq). cbn [negb].
    split; [reflexivity |].
    unfold st1. rewrite !map_map. split; apply map_ext; intros x.
    + apply save_row_pk.
    + apply save_row_parent.
  - intros Hne t trow -> Htk Ht.
    assert (Hdiff : option_Z_eqb cur (Some t) = false).
    { destruct (option_Z_eqb cur (Some t)) eqn:E; [| reflexivity].
      apply option_Z_eqb_eq in E. contradiction. }
    assert (Hpt : pk trow = t) by exact (find_row_pk t st trow Ht).
    assert (Ht1 : find_row t st1 = Some (save_row node trow)).
    { unfold st1. rewrite find_row_saved, Ht. reflexivity. }
    assert (Hself : in_branch st k trow = is_descendant_of st trow k).
    { unfold in_branch. rewrite Hpt.
      destruct (Z.eqb_spec t k); [contradiction | reflexivity]. }
    assert (Hmove : move node t sorted_child st1
                    = if is_descendant_of st trow k
                      then (Raise InvalidMoveToDescendant, st1)
                      else (Ok tt,
                            insert_sorted (row_of k (Some t) node)
                              (filter (fun x => negb (pk x =? k)) st1))).
    { unfold move. rewrite Hrow1, Ht1.
      cbn [row_of pk]. unfold st1 at 1. rewrite in_branch_saved, Hself.
      destruct (is_descendant_of st trow k); [reflexivity |].
      rewrite save_row_pk, Hpt. reflexivity. }
    rewrite Hstart, Hdiff. change (negb false) with true.
    cbv beta iota. unfold on_parent.
    destruct (is_descendant_of st trow k) eqn:Hbranch.
    + split; [exact (bind_raise _ _ _ _ _ Hmove) | exact Hpar1].
    + set (moved := row_of k (Some t) node).
      set (others := filter (fun x => negb (pk x =? k)) (get_children t st1)).
      set (st2 := insert_sorted moved
                    (filter (fun x => negb (pk x =? k)) st1)).
      assert (Hfresh :
                find_row (pk moved)
                  (filter (fun x => negb (pk x =? k)) st1) = None)
        by (unfold moved; cbn [row_of pk]; apply find_row_filter_same).
      assert (Hk2 : find_row k st2 = Some moved).
      { unfold st2. rewrite (find_row_insert_sorted _ _ _ Hfresh).
        unfold moved. cbn [row_of pk]. rewrite Z.eqb_refl. reflexivity. }
      assert (Ht2 : find_row t st2 = Some (save_row node trow)).
      { unfold st2. rewrite (find_row_insert_sorted _ _ _ Hfresh).
        unfold moved. cbn [row_of pk].
        destruct (Z.eqb_spec k t) as [Hkt | _]; [congruence |].
        rewrite (find_row_filter_other t k st1 Htk). exact Ht1. }
      assert (Hgc : get_children t st2 = place_sorted moved others).
      { unfold get_children, st2, others.
        change (Some t) with (row_parent moved) at 1.
        rewrite siblings_insert_sorted, siblings_filter. reflexivity. }
      split; [| split; [| split]].
      * rewrite (bind_ok _ _ _ _ _ Hmove). reflexivity.
      * unfold get_parent, row_for. rewrite Hnid, Hk2.
        unfold moved at 1. cbn [row_of row_parent]. rewrite Ht2.
        reflexivity.
      * exact Hgc.
      * intros Hsorted. rewrite Hgc.
        apply place_sorted_sorted. exact Hsorted.
Qed.

(** * The number of roots *)

Lemma root_count_insert_sorted (new : Row) (st : Store) :
  root_count (insert_sorted new st)
  = match row_parent new with
    | None => S (root_count st)
    | Some _ => root_count st
    end.
Proof.
  unfold root_count, get_root_nodes.
  destruct (row_parent new) as [p |] eqn:Hp.
  - rewrite siblings_insert_other; [reflexivity |].
    rewrite Hp. reflexivity.
  - rewrite <- Hp, siblings_insert_sorted, place_sorted_length.
    reflexivity.
Qed.

Lemma root_count_filter (P : Row -> bool) (st : Store) :
  (root_count (filter P st) <= root_count st)%nat.
Proof.
  unfold root_count, get_root_nodes.
  rewrite siblings_filter. apply filter_length_le.
Qed.

Lemma root_count_saved (self : Node) (st : Store) :
  root_count (map (save_row self) st) = root_count st.
Proof.
  unfold root_count, get_root_nodes.
  rewrite siblings_saved. apply length_map.
Qed.

Lemma reads_only_adds_no_root {A} (m : M A) :
  reads_only m -> adds_no_root m.
Proof. intros H st. rewrite H. apply Nat.le_refl. Qed.

Lemma adds_no_root_bind {A B} (m : M A) (k : A -> M B) :
  adds_no_root m -> (forall a, adds_no_root (k a)) -> adds_no_root (bind m k).
Proof.
  intros Hm Hk st. unfold bind.
  specialize (Hm st). destruct (m st) as [[a | e] st']; cbn [snd] in *.
  - specialize (Hk a st'). lia.
  - exact Hm.
Qed.

Lemma reads_only_ret {A} (a : A) : reads_only (ret a).
Proof. intros st. reflexivity. Qed.

Lemma reads_only_raise {A} (e : Exception) : reads_only (@raise A e).
Proof. intros st. reflexivity. Qed.

Lemma reads_only_get_parent (n : Node) : reads_only (get_parent n).
Proof.
  intros st. unfold get_parent.
  destruct (row_for st n) as [r |]; [| reflexivity].
  destruct (row_parent r) as [p |]; [| reflexivity].
  destruct (find_row p st); reflexivity.
Qed.

Lemma reads_only_get_object_or_404 (k : Z) : reads_only (get_object_or_404 k).
Proof.
  intros st. unfold get_object_or_404.
  destruct (find_row k st); reflexivity.
Qed.

Lemma reads_only_NodeForm_init (inst : Node) (i : option Z) (n a : str)
    (p : option Z) :
  reads_only (NodeForm_init inst i n a p).
Proof.
  intros st. unfold NodeForm_init, bind, get_store, ret.
  destruct (is_root st inst || (count st =? 0)%nat); [reflexivity |].
  destruct (truthy (id inst)); [| reflexivity].
  pose proof (reads_only_get_parent inst st) as H.
  destruct (get_parent inst st) as [[c | e] st']; cbn [snd] in *;
    subst; reflexivity.
Qed.

Lemma adds_no_root_add_child (k : Z) (n : Node) : adds_no_root (add_child k n).
Proof.
  intros st. unfold add_child, add_sorted.
  destruct (id n); cbn [raise snd]; [apply Nat.le_refl |].
  rewrite root_count_insert_sorted. cbn [row_of row_parent].
  apply Nat.le_refl.
Qed.

Lemma adds_no_root_Model_save (n : Node) : adds_no_root (Model_save n).
Proof.
  intros st. unfold Model_save.
  destruct (row_for st n); cbn [snd]; [| apply Nat.le_refl].
  rewrite root_count_saved. apply Nat.le_refl.
Qed.

Lemma adds_no_root_move (n : Node) (t : Z) (pos : Pos) :
  adds_no_root (move n t pos).
Proof.
  intros st. unfold move.
  destruct (row_for st n) as [r |]; [| apply Nat.le_refl].
  destruct (find_row t st) as [tr |]; [| apply Nat.le_refl].
  destruct (in_branch st (pk r) tr); cbn [snd]; [apply Nat.le_refl |].
  rewrite root_count_insert_sorted. cbn [row_parent].
  apply root_count_filter.
Qed.

Lemma adds_no_root_on_parent {A} (v : option Z) (method : Z -> M A) :
  (forall p, adds_no_root (method p)) -> adds_no_root (on_parent v method).
Proof.
  intros H. destruct v as [p |]; cbn [on_parent].
  - apply H.
  - apply reads_only_adds_no_root, reads_only_raise.
Qed.

(** A save adds a root only to an empty table, and then only one. *)
Lemma NodeForm_save_roots (f : NodeForm) (commit : bool) (st : Store) :
  (root_count (snd (NodeForm_save f commit st))
   <= if (count st =? 0)%nat then 1 else root_count st)%nat.
Proof.
  assert (Hsame : (root_count st
                   <= if (count st =? 0)%nat then 1 else root_count st)%nat).
  { destruct st; cbn; lia. }
  destruct (errors st f) as [| e es] eqn:Herr.
  - destruct (errors_nil st f Herr) as [_ [_ [_ [v Hv]]]].
    rewrite (NodeForm_save_valid st f commit v Herr Hv).
    destruct commit; cbn [negb]; [| exact Hsame].
    destruct (id (construct_instance f)) as [k |] eqn:Hid.
    + transitivity (root_count st); [| exact Hsame].
      clear Herr Hv Hsame. revert st.
      change (adds_no_root
                (Model_save (construct_instance f) ;;;
                 current <- get_parent (construct_instance f) ;;
                 if negb (option_Z_eqb current v)
                 then on_parent v
                        (fun p => move (construct_instance f) p sorted_child) ;;;
                      ret (construct_instance f)
                 else ret (construct_instance f))).
      apply adds_no_root_bind; [apply adds_no_root_Model_save |].
      intros _.
      apply adds_no_root_bind;
        [apply reads_only_adds_no_root, reads_only_get_parent |].
      intros current.
      destruct (negb (option_Z_eqb current v)).
      * apply adds_no_root_bind.
        -- apply adds_no_root_on_parent. intros p. apply adds_no_root_move.
        -- intros _. apply reads_only_adds_no_root, reads_only_ret.
      * apply reads_only_adds_no_root, reads_only_ret.
    + unfold bind, get_store.
      destruct (Nat.eqb_spec (count st) 0) as [Hzero | Hmore].
      * destruct st; [| discriminate].
        unfold add_root, add_sorted. rewrite Hid. cbn. lia.
      * apply (adds_no_root_on_parent v
                 (fun p => add_child p (construct_instance f))).
        intros p. apply adds_no_root_add_child.
  - rewrite NodeForm_save_invalid by (rewrite Herr; discriminate).
    exact Hsame.
Qed.

Lemma run_op_roots (op : SaveOp) (st : Store) :
  (root_count (snd (run_op op st))
   <= if (count st =? 0)%nat then 1 else root_count st)%nat.
Proof.
  assert (Hsame : (root_count st
                   <= if (count st =? 0)%nat then 1 else root_count st)%nat).
  { destruct st; cbn; lia. }
  destruct op as [i n a p commit | k i n a p commit]; unfold run_op.
  - pose proof (reads_only_NodeForm_init new_instance i n a p st) as Hinit.
    unfold bind.
    destruct (NodeForm_init new_instance i n a p st) as [[f | e] st'];
      cbn [snd] in *; subst st'.
    + apply NodeForm_save_roots.
    + exact Hsame.
  - pose proof (reads_only_get_object_or_404 k st) as Hget.
    unfold bind at 1.
    destruct (get_object_or_404 k st) as [[inst | e] st'];
      cbn [snd] in *; subst st'; [| exact Hsame].
    pose proof (reads_only_NodeForm_init inst i n a p st) as Hinit.
    unfold bind.
    destruct (NodeForm_init inst i n a p st) as [[f | e] st'];
      cbn [snd] in *; subst st'.
    + apply NodeForm_save_roots.
    + exact Hsame.
Qed.

(** C6.  From a table with exactly one root, no sequence of form saves
    leaves a table with a second root; no save adds a root while the table
    holds a node, and a save on the empty table adds at most one. *)
Theorem single_root_preserved (st : Store) (ops : list SaveOp) :
  root_count st = 1%nat ->
  (root_count (run_ops ops st) <= 1)%nat
  /\ (forall op st0,
        (root_count (snd (run_op op st0))
         <= if (count st0 =? 0)%nat then 1 else root_count st0)%nat).
Proof.
  intros Hone. split; [| exact run_op_roots].
  assert (Hle : (root_count st <= 1)%nat) by lia.
  clear Hone. revert st Hle.
  induction ops as [| op rest IH]; intros st Hle.
  - exact Hle.
  - cbn [run_ops]. apply IH.
    pose proof (run_op_roots op st) as Hstep.
    destruct (count st =? 0)%nat; lia.
Qed.

(** * The keys of the table *)

Lemma Forall_insert_sorted (P : Row -> Prop) (new : Row) (st : Store) :
  P new -> Forall P st -> Forall P (insert_sorted new st).
Proof.
  intros Hnew Hst. induction Hst as [| x rest Hx Hrest IH].
  - constructor; [exact Hnew | constructor].
  - cbn [insert_sorted].
    destruct (option_Z_eqb (row_parent x) (row_parent new) && sorts_after x new).
    + constructor; [exact Hnew |]. constructor; assumption.
    + constructor; assumption.
Qed.

Lemma Forall_filter (P : Row -> Prop) (keep : Row -> bool) (st : Store) :
  Forall P st -> Forall P (filter keep st).
Proof.
  intros Hst. rewrite Forall_forall in *. intros r Hr.
  apply filter_In in Hr. exact (Hst r (proj1 Hr)).
Qed.

Lemma keeps_keys_positive_bind {A B} (m : M A) (k : A -> M B) :
  keeps_keys_positive m ->
  (forall a, keeps_keys_positive (k a)) ->
  keeps_keys_positive (bind m k).
Proof.
  intros Hm Hk st Hst. unfold bind.
  specialize (Hm st Hst). destruct (m st) as [[a | e] st']; cbn [snd] in *.
  - exact (Hk a st' Hm).
  - exact Hm.
Qed.

Lemma reads_only_keeps_keys_positive {A} (m : M A) :
  reads_only m -> keeps_keys_positive m.
Proof. intros H st Hst. rewrite H. exact Hst. Qed.

Lemma keeps_keys_positive_add_sorted (p : option Z) (n : Node) :
  keeps_keys_positive (add_sorted p n).
Proof.
  intros st Hst. unfold add_sorted.
  destruct (id n); cbn [raise snd]; [exact Hst |].
  apply Forall_insert_sorted; [| exact Hst].
  cbn [row_of pk]. apply next_pk_positive.
Qed.

Lemma keeps_keys_positive_Model_save (n : Node) :
  keeps_keys_positive (Model_save n).
Proof.
  intros st Hst. unfold Model_save.
  destruct (row_for st n) as [stored |]; cbn [snd]; [| exact Hst].
  unfold keys_positive in *. rewrite Forall_forall in *.
  intros y Hy. apply in_map_iff in Hy. destruct Hy as [x [<- Hx]].
  rewrite save_row_pk. exact (Hst x Hx).
Qed.

Lemma keeps_keys_positive_move (n : Node) (t : Z) (pos : Pos) :
  keeps_keys_positive (move n t pos).
Proof.
  intros st Hst. unfold move.
  destruct (row_for st n) as [r |] eqn:Hr; [| exact Hst].
  destruct (find_row t st) as [tr |]; [| exact Hst].
  destruct (in_branch st (pk r) tr); cbn [snd]; [exact Hst |].
  apply Forall_insert_sorted; [| apply Forall_filter; exact Hst].
  cbn [pk]. unfold row_for in Hr.
  destruct (id n) as [k |]; [| discriminate].
  unfold keys_positive in Hst. rewrite Forall_forall in Hst.
  apply Hst. exact (find_row_In k st r Hr).
Qed.

Lemma keeps_keys_positive_Node_delete (n : Node) :
  keeps_keys_positive (Node_delete n).
Proof.
  intros st Hst. unfold Node_delete, bind, get_store, raise.
  destruct (is_root st n); cbn [snd]; [exact Hst |].
  unfold MP_Node_delete. destruct (id n); cbn [snd]; [| exact Hst].
  apply Forall_filter. exact Hst.
Qed.

Lemma reads_only_ModelForm_save_uncommitted (f : NodeForm) :
  reads_only (ModelForm_save_uncommitted f).
Proof.
  intros st. unfold ModelForm_save_uncommitted, bind, get_store.
  destruct (errors st f); reflexivity.
Qed.

Lemma reads_only_cleaned_data_parent (f : NodeForm) :
  reads_only (cleaned_data_parent f).
Proof.
  intros st. unfold cleaned_data_parent, bind, get_store.
  destruct (clean_parent st f); reflexivity.
Qed.

Lemma keeps_keys_positive_NodeForm_save (f : NodeForm) (commit : bool) :
  keeps_keys_positive (NodeForm_save f commit).
Proof.
  unfold NodeForm_save.
  apply keeps_keys_positive_bind;
    [apply reads_only_keeps_keys_positive,
       reads_only_ModelForm_save_uncommitted |].
  intros inst.
  apply keeps_keys_positive_bind;
    [apply reads_only_keeps_keys_positive, reads_only_cleaned_data_parent |].
  intros v.
  destruct commit; cbn [negb];
    [| apply reads_only_keeps_keys_positive, reads_only_ret].
  destruct (id inst).
  - apply keeps_keys_positive_bind; [apply keeps_keys_positive_Model_save |].
    intros _.
    apply keeps_keys_positive_bind;
      [apply reads_only_keeps_keys_positive, reads_only_get_parent |].
    intros current.
    destruct (negb (option_Z_eqb current v));
      [| apply reads_only_keeps_keys_positive, reads_only_ret].
    apply keeps_keys_positive_bind;
      [| intros _; apply reads_only_keeps_keys_positive, reads_only_ret].
    destruct v as [t |]; cbn [on_parent].
    + apply keeps_keys_positive_move.
    + apply reads_only_keeps_keys_positive, reads_only_raise.
  - apply keeps_keys_positive_bind;
      [apply reads_only_keeps_keys_positive; intros st; reflexivity |].
    intros st'.
    destruct (count st' =? 0)%nat.
    + apply keeps_keys_positive_add_sorted.
    + destruct v as [t |]; cbn [on_parent].
      * apply keeps_keys_positive_add_sorted.
      * apply reads_only_keeps_keys_positive, reads_only_raise.
Qed.

Lemma keeps_keys_positive_run_op (op : SaveOp) :
  keeps_keys_positive (run_op op).
Proof.
  destruct op as [i n a p commit | k i n a p commit]; unfold run_op.
  - apply keeps_keys_positive_bind;
      [apply reads_only_keeps_keys_positive, reads_only_NodeForm_init |].
    intros f. apply keeps_keys_positive_NodeForm_save.
  - apply keeps_keys_positive_bind;
      [apply reads_only_keeps_keys_positive, reads_only_get_object_or_404 |].
    intros inst.
    apply keeps_keys_positive_bind;
      [apply reads_only_keeps_keys_positive, reads_only_NodeForm_init |].
    intros f. apply keeps_keys_positive_NodeForm_save.
Qed.

(** Every table built from the empty one by form saves has positive keys. *)
Lemma run_ops_keys_positive (ops : list SaveOp) :
  forall st, keys_positive st -> keys_positive (run_ops ops st).
Proof.
  induction ops as [| op rest IH]; intros st Hst; cbn [run_ops].
  - exact Hst.
  - apply IH. apply keeps_keys_positive_run_op. exact Hst.
Qed.

(** * Choice labels *)

Lemma leading_dashes_label (n : nat) (rest : str) :
  leading_dashes (repeat 45%N n ++ 32%N :: rest) = n.
Proof.
  induction n as [| n IH]; cbn [repeat app leading_dashes].
  - reflexivity.
  - cbn. rewrite IH. reflexivity.
Qed.

Lemma skipn_label (n : nat) (rest : str) :
  skipn n (repeat 45%N n ++ 32%N :: rest) = 32%N :: rest.
Proof.
  induction n as [| n IH]; cbn [repeat app skipn]; [reflexivity | exact IH].
Qed.

Lemma get_depth_positive (st : Store) (n : Node) (d : nat) :
  get_depth st n = Some d -> (1 <= d)%nat.
Proof.
  unfold get_depth. destruct (row_for st n); [| discriminate].
  intros [= <-]. lia.
Qed.

(** X1.  The label of a stored node in the parent drop-down reads back to
    the node's depth and its name: the number of dashes that open the label
    is the depth less one and what follows the space is the name, whatever
    characters the name holds. *)
Theorem label_from_instance_reads_back (st : Store) (obj : Node) (l : str) :
  label_from_instance st obj = inl l ->
  exists d,
    get_depth st obj = Some d
    /\ read_label l = Some (d, name obj)
    /\ length l = (d + length (name obj))%nat.
Proof.
  unfold label_from_instance, get_depth.
  destruct (row_for st obj) as [r |]; [| discriminate].
  cbv zeta. intros [= <-].
  set (n := length (ancestors (length st) st (row_parent r))).
  change (S n - 1)%nat with (n - 0)%nat. rewrite Nat.sub_0_r.
  exists (S n). split; [reflexivity |]. split.
  - unfold read_label, Node_str. cbn [app].
    rewrite leading_dashes_label, skipn_label. reflexivity.
  - rewrite length_app, repeat_length. cbn [app length]. unfold Node_str. lia.
Qed.

(** * The listing header *)

(** X2.  In the listing a stored node is shown in bold exactly when it is a
    root.  Every other node is at depth 2 or more, is indented by its depth
    less one, and is shown at 110 percent at depth 2 and at 100 percent
    below; the template's 120 percent for a node at depth 1 that is no root
    is never used.  An instance that was never stored makes the subtraction
    on its depth fail. *)
Theorem listing_header_by_depth (st : Store) (self : Node) :
  match get_depth st self with
  | None => get_as_listing_header st self = inr unsupported_operand
  | Some d =>
      if is_root st self
      then d = 1%nat
           /\ get_as_listing_header st self = inl (RootHeader (name self))
      else (2 <= d)%nat
           /\ get_as_listing_header st self
              = inl (NestedHeader (Z.of_nat d - 1)
                       (if (d =? 2)%nat then 110 else 100) (name self))
  end.
Proof.
  unfold get_as_listing_header, is_root.
  destruct (get_depth st self) as [d |] eqn:Hd; [| reflexivity].
  pose proof (get_depth_positive st self d Hd) as Hpos.
  unfold node_list_header. cbn [ctx_is_root ctx_name ctx_depth
    ctx_depth_minus_1].
  destruct (Nat.eqb_spec d 1) as [-> | Hne].
  - split; reflexivity.
  - split; [lia |].
    destruct (Z.eqb_spec (Z.of_nat d) 1) as [H1 | _]; [lia |].
    destruct (Nat.eqb_spec d 2) as [-> | H2]; [reflexivity |].
    destruct (Z.eqb_spec (Z.of_nat d) 2) as [Hz | _]; [lia | reflexivity].
Qed.

(** * The inspect button *)

Lemma prefix_cons (a c : ascii) (p s : string) :
  prefix (String a p) (String c s) = true <-> a = c /\ prefix p s = true.
Proof.
  cbn [prefix]. destruct (ascii_dec a c) as [-> | Hne].
  - split; [intros H; split; [reflexivity | exact H] | intros [_ H]; exact H].
  - split; [discriminate | intros [H _]; contradiction].
Qed.

Lemma occurs_cons_other (old_tail s : string) (a c : ascii) :
  a <> c ->
  occurs (String a old_tail) (String c s) = occurs (String a old_tail) s.
Proof.
  intros Hne. cbn [occurs prefix].
  destruct (ascii_dec a c) as [Heq | _]; [contradiction | reflexivity].
Qed.

(** A prefix of the replaced text that holds no ['D'] is a prefix of the
    text. *)
Lemma prefix_replace_from (s : string) :
  forall p,
    has_char "D" p = false ->
    prefix p (replace_from "Inspect" "Details" None 0 s) = true ->
    prefix p s = true.
Proof.
  induction s as [| c rest IH]; intros p HnoD Hpre.
  - exact Hpre.
  - destruct p as [| a p']; [reflexivity |].
    cbn [has_char] in HnoD. apply orb_false_iff in HnoD.
    destruct HnoD as [Ha Hp'].
    cbn [replace_from may_replace andb] in Hpre.
    destruct (prefix "Inspect" (String c rest)) eqn:Hmatch.
    + cbn [append] in Hpre. apply prefix_cons in Hpre.
      destruct Hpre as [-> _]. discriminate.
    + apply prefix_cons in Hpre. destruct Hpre as [-> Hpre].
      apply prefix_cons. split; [reflexivity |].
      exact (IH p' Hp' Hpre).
Qed.

(** After the replacement of every occurrence none is left. *)
Lemma replace_from_leaves_none (s : string) :
  forall skip,
    occurs "Inspect" (replace_from "Inspect" "Details" None skip s) = false.
Proof.
  induction s as [| c rest IH]; intros skip.
  - reflexivity.
  - destruct skip as [| k]; [| exact (IH k)].
    destruct (prefix "Inspect"
                (replace_from "Inspect" "Details" None 0 (String c rest)))
      eqn:Hout.
    + pose proof (prefix_replace_from (String c rest) "Inspect" eq_refl Hout)
        as Hin.
      cbn [replace_from may_replace andb] in Hout |- *.
      rewrite Hin in Hout |- *. cbn [append] in Hout. discriminate.
    + cbn [replace_from may_replace andb] in Hout |- *.
      destruct (prefix "Inspect" (String c rest)).
      * cbn [append String.length Nat.sub decrement].
        rewrite !occurs_cons_other by discriminate.
        apply IH.
      * cbn [occurs]. rewrite Hout. cbn [orb]. apply IH.
Qed.

(** Without an occurrence the text is returned as it is, whatever the
    limit. *)
Lemma replace_from_without_occurrence (old new : string) (s : string) :
  forall count,
    occurs old s = false -> replace_from old new count 0 s = s.
Proof.
  induction s as [| c rest IH]; intros count Hocc.
  - reflexivity.
  - cbn [occurs] in Hocc. apply orb_false_iff in Hocc.
    destruct Hocc as [Hpre Hrest].
    cbn [replace_from]. rewrite Hpre, andb_false_r.
    rewrite (IH count Hrest). reflexivity.
Qed.

(** X3.  The inspect button that [NodeButtonHelper] hands out never says
    'Inspect' in its label, and its title is its label: the title of the
    framework's button is not used.  Address and class names are the
    framework's. *)
Theorem inspect_button_title_is_label (button : Button) :
  title (inspect_button button) = label (inspect_button button)
  /\ occurs "Inspect" (label (inspect_button button)) = false
  /\ (occurs "Inspect" (label button) = false ->
      label (inspect_button button) = label button)
  /\ url (inspect_button button) = url button
  /\ classname (inspect_button button) = classname button.
Proof.
  unfold inspect_button. cbn [title label url classname replace].
  assert (Hnone : occurs "Inspect"
                    (replace_from "Inspect" "Details" None 0 (label button))
                  = false) by apply replace_from_leaves_none.
  split; [| split; [exact Hnone | split; [| split; reflexivity]]].
  - apply replace_from_without_occurrence. exact Hnone.
  - intros H. apply replace_from_without_occurrence. exact H.
Qed.

(** * Keeping a property of the table *)

Lemma keeps_bind {A B} (P : Store -> Prop) (m : M A) (k : A -> M B) :
  keeps P m -> (forall a, keeps P (k a)) -> keeps P (bind m k).
Proof.
  intros Hm Hk st Hst. unfold bind.
  specialize (Hm st Hst). destruct (m st) as [[a | e] st']; cbn [snd] in *.
  - exact (Hk a st' Hm).
  - exact Hm.
Qed.

Lemma reads_only_keeps {A} (P : Store -> Prop) (m : M A) :
  reads_only m -> keeps P m.
Proof. intros H st Hst. rewrite H. exact Hst. Qed.

(** [save] keeps every property that the three writes of the tree library
    and the ORM keep. *)
Lemma keeps_NodeForm_save (P : Store -> Prop) :
  (forall p n, keeps P (add_sorted p n)) ->
  (forall n, keeps P (Model_save n)) ->
  (forall n t pos, keeps P (move n t pos)) ->
  forall f commit, keeps P (NodeForm_save f commit).
Proof.
  intros Hadd Hsave Hmove f commit. unfold NodeForm_save.
  apply keeps_bind;
    [apply reads_only_keeps, reads_only_ModelForm_save_uncommitted |].
  intros inst.
  apply keeps_bind; [apply reads_only_keeps, reads_only_cleaned_data_parent |].
  intros v.
  destruct commit; cbn [negb]; [| apply reads_only_keeps, reads_only_ret].
  destruct (id inst).
  - apply keeps_bind; [apply Hsave |]. intros _.
    apply keeps_bind; [apply reads_only_keeps, reads_only_get_parent |].
    intros current.
    destruct (negb (option_Z_eqb current v));
      [| apply reads_only_keeps, reads_only_ret].
    apply keeps_bind; [| intros _; apply reads_only_keeps, reads_only_ret].
    destruct v as [t |]; cbn [on_parent].
    + apply Hmove.
    + apply reads_only_keeps, reads_only_raise.
  - apply keeps_bind; [apply reads_only_keeps; intros st; reflexivity |].
    intros st'.
    destruct (count st' =? 0)%nat.
    + apply Hadd.
    + destruct v as [t |]; cbn [on_parent].
      * apply Hadd.
      * apply reads_only_keeps, reads_only_raise.
Qed.

Lemma keeps_run_op (P : Store -> Prop) :
  (forall f commit, keeps P (NodeForm_save f commit)) ->
  forall op, keeps P (run_op op).
Proof.
  intros Hsave op.
  destruct op as [i n a p commit | k i n a p commit]; unfold run_op.
  - apply keeps_bind; [apply reads_only_keeps, reads_only_NodeForm_init |].
    intros f. apply Hsave.
  - apply keeps_bind;
      [apply reads_only_keeps, reads_only_get_object_or_404 |].
    intros inst.
    apply keeps_bind; [apply reads_only_keeps, reads_only_NodeForm_init |].
    intros f. apply Hsave.
Qed.

(** * Unique keys *)

Lemma insert_sorted_perm (new : Row) (st : Store) :
  Permutation (insert_sorted new st) (new :: st).
Proof.
  induction st as [| x rest IH]; cbn [insert_sorted].
  - apply Permutation_refl.
  - destruct (option_Z_eqb (row_parent x) (row_parent new) && sorts_after x new).
    + apply Permutation_refl.
    + apply perm_trans with (x :: new :: rest).
      * apply perm_skip. exact IH.
      * apply perm_swap.
Qed.

Lemma find_row_none_keys (k : Z) (st : Store) :
  find_row k st = None <-> ~ In k (map pk st).
Proof.
  rewrite find_row_none_iff. split.
  - intros H Hin. apply in_map_iff in Hin. destruct Hin as [r [Hr Hin]].
    exact (H r Hin Hr).
  - intros H r Hin Hr. apply H. apply in_map_iff. exists r. split; assumption.
Qed.

Lemma filter_other_keys (k : Z) (st : Store) :
  ~ In k (map pk st) -> filter (fun x => negb (pk x =? k)) st = st.
Proof.
  induction st as [| x rest IH]; intros Hk; [reflexivity |].
  cbn [filter]. cbn [map In] in Hk.
  destruct (Z.eqb_spec (pk x) k) as [Heq | _]; cbn [negb].
  - exfalso. apply Hk. left. exact Heq.
  - rewrite IH; [reflexivity |]. intros Hin. apply Hk. right. exact Hin.
Qed.

(** With unique keys, dropping the rows of a key drops exactly the row
    found under it. *)
Lemma keys_unique_split (k : Z) (st : Store) (r : Row) :
  keys_unique st ->
  find_row k st = Some r ->
  Permutation st (r :: filter (fun x => negb (pk x =? k)) st).
Proof.
  unfold keys_unique. induction st as [| x rest IH]; intros Hu Hr.
  - discriminate.
  - cbn [map] in Hu. inversion Hu as [| ? ? Hnotin Hrest]; subst.
    cbn [find_row] in Hr. cbn [filter].
    destruct (Z.eqb_spec (pk x) k) as [Heq | Hne]; cbn [negb].
    + injection Hr as <-. rewrite filter_other_keys.
      * apply Permutation_refl.
      * rewrite <- Heq. exact Hnotin.
    + apply perm_trans with (x :: r :: filter (fun y => negb (pk y =? k)) rest).
      * apply perm_skip. exact (IH Hrest Hr).
      * apply perm_swap.
Qed.

Lemma keys_unique_row (k : Z) (st : Store) (r x : Row) :
  keys_unique st ->
  find_row k st = Some r ->
  In x st -> pk x = k -> x = r.
Proof.
  unfold keys_unique. induction st as [| y rest IH]; intros Hu Hr Hin Hx.
  - destruct Hin.
  - cbn [map] in Hu. inversion Hu as [| ? ? Hnotin Hrest]; subst.
    cbn [find_row] in Hr.
    destruct (Z.eqb_spec (pk y) (pk x)) as [Heq | Hne].
    + injection Hr as <-. destruct Hin as [Hin | Hin]; [symmetry; exact Hin |].
      exfalso. apply Hnotin. rewrite Heq. apply in_map. exact Hin.
    + destruct Hin as [Hin | Hin]; [subst; contradiction |].
      exact (IH Hrest Hr Hin eq_refl).
Qed.

Lemma keys_unique_filter (keep : Row -> bool) (st : Store) :
  keys_unique st -> keys_unique (filter keep st).
Proof.
  unfold keys_unique. induction st as [| x rest IH]; intros Hu.
  - constructor.
  - cbn [map] in Hu. inversion Hu as [| ? ? Hnotin Hrest]; subst.
    cbn [filter]. destruct (keep x); [| exact (IH Hrest)].
    cbn [map]. constructor; [| exact (IH Hrest)].
    intros Hin. apply Hnotin. apply in_map_iff in Hin.
    destruct Hin as [y [Hy Hin]]. apply filter_In in Hin.
    apply in_map_iff. exists y. split; [exact Hy | exact (proj1 Hin)].
Qed.

Lemma keys_unique_insert (new : Row) (st : Store) :
  keys_unique st ->
  find_row (pk new) st = None ->
  keys_unique (insert_sorted new st).
Proof.
  unfold keys_unique. intros Hu Hfresh.
  apply (Permutation_NoDup
           (Permutation_sym (Permutation_map pk (insert_sorted_perm new st)))).
  cbn [map]. constructor; [| exact Hu].
  apply find_row_none_keys. exact Hfresh.
Qed.

Lemma keys_saved (self : Node) (st : Store) :
  map pk (map (save_row self) st) = map pk st.
Proof. rewrite map_map. apply map_ext. intros x. apply save_row_pk. Qed.

Lemma keeps_keys_unique_add_sorted (p : option Z) (n : Node) :
  keeps keys_unique (add_sorted p n).
Proof.
  intros st Hu. unfold add_sorted.
  destruct (id n); cbn [raise snd]; [exact Hu |].
  apply keys_unique_insert; [exact Hu |].
  cbn [row_of pk]. apply next_pk_fresh.
Qed.

Lemma keeps_keys_unique_Model_save (n : Node) :
  keeps keys_unique (Model_save n).
Proof.
  intros st Hu. unfold Model_save.
  destruct (row_for st n); cbn [snd]; [| exact Hu].
  unfold keys_unique. rewrite keys_saved. exact Hu.
Qed.

Lemma keeps_keys_unique_move (n : Node) (t : Z) (pos : Pos) :
  keeps keys_unique (move n t pos).
Proof.
  intros st Hu. unfold move.
  destruct (row_for st n) as [r |]; [| exact Hu].
  destruct (find_row t st) as [tr |]; [| exact Hu].
  destruct (in_branch st (pk r) tr); cbn [snd]; [exact Hu |].
  apply keys_unique_insert.
  - apply keys_unique_filter. exact Hu.
  - cbn [pk]. apply find_row_filter_same.
Qed.

Lemma keeps_keys_unique_Node_delete (n : Node) :
  keeps keys_unique (Node_delete n).
Proof.
  intros st Hu. unfold Node_delete, bind, get_store, raise.
  destruct (is_root st n); cbn [snd]; [exact Hu |].
  unfold MP_Node_delete. destruct (id n); cbn [snd]; [| exact Hu].
  apply keys_unique_filter. exact Hu.
Qed.

Lemma keeps_keys_unique_run_request (r : Request) :
  keeps keys_unique (run_request r).
Proof.
  destruct r as [op | k]; unfold run_request.
  - apply keeps_bind; [| intros _; apply reads_only_keeps, reads_only_ret].
    apply keeps_run_op. apply keeps_NodeForm_save.
    + apply keeps_keys_unique_add_sorted.
    + apply keeps_keys_unique_Model_save.
    + apply keeps_keys_unique_move.
  - apply keeps_bind;
      [apply reads_only_keeps, reads_only_get_object_or_404 |].
    intros inst. apply keeps_keys_unique_Node_delete.
Qed.

(** * Roots are neither deleted nor moved *)

Lemma ancestors_of_root (fuel : nat) (st : Store) : ancestors fuel st None = [].
Proof. destruct fuel; reflexivity. Qed.

Lemma root_count_filter_keeps_roots (keep : Row -> bool) (st : Store) :
  (forall x, In x st -> row_parent x = None -> keep x = true) ->
  root_count (filter keep st) = root_count st.
Proof.
  unfold root_count, get_root_nodes, siblings_under.
  induction st as [| x rest IH]; intros Hkeep; [reflexivity |].
  assert (Hrest : forall y, In y rest -> row_parent y = None -> keep y = true).
  { intros y Hy. apply Hkeep. right. exact Hy. }
  cbn [filter].
  destruct (keep x) eqn:Hx; cbn [filter].
  - destruct (option_Z_eqb (row_parent x) None); cbn [length];
      rewrite (IH Hrest); reflexivity.
  - destruct (option_Z_eqb (row_parent x) None) eqn:Hroot.
    + apply option_Z_eqb_eq in Hroot.
      rewrite (Hkeep x (or_introl eq_refl) Hroot) in Hx. discriminate.
    + exact (IH Hrest).
Qed.

(** A root is outside the branch of every node that is no root. *)
Lemma root_outside_branch (st : Store) (self : Node) (k : Z) (x : Row) :
  keys_unique st ->
  is_root st self = false ->
  id self = Some k ->
  In x st ->
  row_parent x = None ->
  in_branch st k x = false.
Proof.
  intros Hu Hroot Hid Hx Hnone.
  unfold in_branch, is_descendant_of.
  rewrite Hnone, ancestors_of_root. cbn [existsb]. rewrite orb_false_r.
  destruct (Z.eqb_spec (pk x) k) as [Hk | _]; [| reflexivity].
  exfalso.
  destruct (find_row k st) as [r |] eqn:Hr.
  - assert (x = r) by exact (keys_unique_row k st r x Hu Hr Hx Hk). subst x.
    assert (Htrue : is_root st self = true).
    { apply is_root_spec. exists r. split; [| exact Hnone].
      unfold row_for. rewrite Hid. exact Hr. }
    congruence.
  - apply (proj1 (find_row_none_iff k st) Hr x Hx Hk).
Qed.

Lemma Node_delete_roots (st : Store) (self : Node) :
  keys_unique st ->
  root_count (snd (Node_delete self st)) = root_count st.
Proof.
  intros Hu. unfold Node_delete, bind, get_store, raise.
  destruct (is_root st self) eqn:Hroot; cbn [snd]; [reflexivity |].
  unfold MP_Node_delete.
  destruct (id self) as [k |] eqn:Hid; cbn [snd]; [| reflexivity].
  apply root_count_filter_keeps_roots. intros x Hx Hnone.
  rewrite (root_outside_branch st self k x Hu Hroot Hid Hx Hnone).
  reflexivity.
Qed.

(** X4.  [Node.delete()] never removes a root: when no two rows share a key,
    every root row is still in the table after the call, and the table has
    as many roots as before, whether the call was refused or went
    through. *)
Theorem Node_delete_keeps_roots (st : Store) (self : Node) :
  keys_unique st ->
  root_count (snd (Node_delete self st)) = root_count st
  /\ forall x,
       In x st -> row_parent x = None -> In x (snd (Node_delete self st)).
Proof.
  intros Hu. split; [exact (Node_delete_roots st self Hu) |].
  intros x Hx Hnone. unfold Node_delete, bind, get_store, raise.
  destruct (is_root st self) eqn:Hroot; cbn [snd]; [exact Hx |].
  unfold MP_Node_delete.
  destruct (id self) as [k |] eqn:Hid; cbn [snd]; [| exact Hx].
  apply filter_In. split; [exact Hx |].
  rewrite (root_outside_branch st self k x Hu Hroot Hid Hx Hnone).
  reflexivity.
Qed.

(** The form that [__init__] builds keeps the instance, and for a root that
    comes without initial data it cleans [parent] to [None]. *)
Lemma NodeForm_init_root_parent (st st' : Store) (inst : Node) (n a : str)
    (p : option Z) (f : NodeForm) :
  NodeForm_init inst None n a p st = (Ok f, st') ->
  instance f = inst
  /\ (is_root st inst = true -> clean_parent st f = inl None).
Proof.
  unfold NodeForm_init, bind, get_store, ret.
  destruct (is_root st inst) eqn:Hroot; cbn [orb].
  - intros [= <- <-]. split; reflexivity.
  - destruct (count st =? 0)%nat.
    + intros [= <- <-]. split; [reflexivity | discriminate].
    + destruct (truthy (id inst)).
      * destruct (get_parent inst st) as [[c | e] st''].
        -- intros [= <- <-]. split; [reflexivity | discriminate].
        -- discriminate.
      * intros [= <- <-]. split; [reflexivity | discriminate].
Qed.

Lemma NodeForm_init_instance (st st' : Store) (inst : Node) (i : option Z)
    (n a : str) (p : option Z) (f : NodeForm) :
  NodeForm_init inst i n a p st = (Ok f, st') -> instance f = inst.
Proof.
  unfold NodeForm_init, bind, get_store, ret.
  destruct (is_root st inst || (count st =? 0)%nat).
  - intros [= <- <-]. reflexivity.
  - destruct (truthy (id inst)).
    + destruct (get_parent inst st) as [[c | e] st''].
      * intros [= <- <-]. reflexivity.
      * discriminate.
    + intros [= <- <-]. reflexivity.
Qed.

(** A move of a node that is no root keeps the number of roots. *)
Lemma move_keeps_roots (st : Store) (n : Node) (t : Z) (pos : Pos) (r : Row) :
  keys_unique st ->
  row_for st n = Some r ->
  row_parent r <> None ->
  root_count (snd (move n t pos st)) = root_count st.
Proof.
  intros Hu Hr Hnonroot. unfold move. rewrite Hr.
  destruct (find_row t st) as [tr |]; [| reflexivity].
  destruct (in_branch st (pk r) tr); cbn [snd]; [reflexivity |].
  rewrite root_count_insert_sorted. cbn [row_parent].
  apply root_count_filter_keeps_roots. intros x Hx Hnone.
  destruct (Z.eqb_spec (pk x) (pk r)) as [Hk | _]; [| reflexivity].
  exfalso. unfold row_for in Hr. destruct (id n) as [k |]; [| discriminate].
  assert (Hpk : pk r = k) by exact (find_row_pk k st r Hr).
  assert (x = r).
  { apply (keys_unique_row k st r x Hu Hr Hx). congruence. }
  subst x. contradiction.
Qed.

(** On a table that holds a node, a save for an instance that is no root,
    or whose cleaned parent is [None], keeps the number of roots. *)
Lemma NodeForm_save_keeps_roots (st : Store) (f : NodeForm) (commit : bool) :
  keys_unique st ->
  count st <> 0%nat ->
  (is_root st (instance f) = true -> clean_parent st f = inl None) ->
  root_count (snd (NodeForm_save f commit st)) = root_count st.
Proof.
  intros Hu Hcount Hrootform.
  destruct (errors st f) as [| e es] eqn:Herr.
  2:{ rewrite NodeForm_save_invalid by (rewrite Herr; discriminate).
      reflexivity. }
  destruct (errors_nil st f Herr) as [_ [_ [_ [v Hv]]]].
  rewrite (NodeForm_save_valid st f commit v Herr Hv).
  destruct commit; cbn [negb]; [| reflexivity].
  destruct (id (construct_instance f)) as [k |] eqn:Hid.
  - unfold bind at 1. unfold Model_save.
    destruct (row_for st (construct_instance f)) as [r |] eqn:Hr;
      [| reflexivity].
    set (st1 := map (save_row (construct_instance f)) st).
    assert (Hroots1 : root_count st1 = root_count st)
      by apply root_count_saved.
    assert (Hu1 : keys_unique st1)
      by (unfold keys_unique, st1; rewrite keys_saved; exact Hu).
    unfold bind at 1.
    pose proof (reads_only_get_parent (construct_instance f) st1) as Hread.
    destruct (get_parent (construct_instance f) st1) as [[cur | e] st'] eqn:Hg;
      cbn [snd] in Hread; subst st'; [| exact Hroots1].
    destruct (option_Z_eqb cur v) eqn:Hsame; cbn [negb]; [exact Hroots1 |].
    destruct v as [t |]; cbn [on_parent]; [| exact Hroots1].
    destruct (get_parent_row st1 (construct_instance f) cur Hg)
      as [r1 [Hr1 Hcur]].
    assert (Hnonroot : row_parent r1 <> None).
    { intros Hnone.
      assert (Hroot1 : is_root st (instance f) = true).
      { apply is_root_spec. exists r. split.
        - exact Hr.
        - unfold row_for, st1 in Hr1. rewrite Hid, find_row_saved in Hr1.
          unfold row_for in Hr. rewrite Hid in Hr. rewrite Hr in Hr1.
          cbn [option_map] in Hr1. injection Hr1 as <-.
          rewrite save_row_parent in Hnone. exact Hnone. }
      specialize (Hrootform Hroot1). rewrite Hrootform in Hv. discriminate. }
    pose proof (move_keeps_roots st1 (construct_instance f) t sorted_child r1
                  Hu1 Hr1 Hnonroot) as Hmove.
    unfold bind.
    destruct (move (construct_instance f) t sorted_child st1)
      as [[u | e] st2]; unfold ret; cbn [snd] in *; congruence.
  - unfold bind, get_store.
    destruct (Nat.eqb_spec (count st) 0) as [Hz | _]; [contradiction |].
    destruct v as [t |]; cbn [on_parent raise snd]; [| reflexivity].
    unfold add_child, add_sorted. rewrite Hid. cbn [snd].
    rewrite root_count_insert_sorted. reflexivity.
Qed.

Lemma run_request_keeps_roots (r : Request) (st : Store) :
  from_view r = true ->
  keys_unique st ->
  count st <> 0%nat ->
  root_count (snd (run_request r st)) = root_count st.
Proof.
  intros Hview Hu Hcount.
  destruct r as [[i n a p commit | k i n a p commit] | k];
    unfold run_request, run_op.
  - unfold bind at 1. unfold bind at 1.
    destruct (NodeForm_init new_instance i n a p st) as [[f | e] st'] eqn:Hi.
    + pose proof (reads_only_NodeForm_init new_instance i n a p st) as Hread.
      rewrite Hi in Hread. cbn [snd] in Hread. subst st'.
      pose proof (NodeForm_init_instance _ _ _ _ _ _ _ _ Hi) as Hinst.
      pose proof (NodeForm_save_keeps_roots st f commit Hu Hcount) as Hsave.
      rewrite Hinst, (is_root_unsaved st new_instance eq_refl) in Hsave.
      specialize (Hsave ltac:(discriminate)).
      destruct (NodeForm_save f commit st) as [[x | e] st2]; exact Hsave.
    + pose proof (reads_only_NodeForm_init new_instance i n a p st) as Hread.
      rewrite Hi in Hread. cbn [snd] in *. subst st'. reflexivity.
  - destruct i as [j |]; [discriminate |].
    unfold bind at 1. unfold bind at 1. unfold get_object_or_404.
    destruct (find_row k st) as [r |]; [| reflexivity].
    unfold bind.
    destruct (NodeForm_init (instance_of r) None n a p st)
      as [[f | e] st'] eqn:Hi.
    + pose proof (reads_only_NodeForm_init (instance_of r) None n a p st)
        as Hread.
      rewrite Hi in Hread. cbn [snd] in Hread. subst st'.
      destruct (NodeForm_init_root_parent _ _ _ _ _ _ _ Hi) as [Hinst Hroot].
      pose proof (NodeForm_save_keeps_roots st f commit Hu Hcount) as Hsave.
      rewrite Hinst in Hsave. specialize (Hsave Hroot).
      destruct (NodeForm_save f commit st) as [[x | e] st2]; exact Hsave.
    + pose proof (reads_only_NodeForm_init (instance_of r) None n a p st)
        as Hread.
      rewrite Hi in Hread. cbn [snd] in *. subst st'. reflexivity.
  - unfold bind, get_object_or_404.
    destruct (find_row k st) as [r |]; [| reflexivity].
    cbn iota. exact (Node_delete_roots st (instance_of r) Hu).
Qed.

(** X5.  A table with unique keys and exactly one root keeps exactly one
    root through every sequence of requests of the admin views: saves of
    the create, add-child and edit forms, and deletes.  The root is never
    deleted and never moved, and the table is never emptied. *)
Theorem one_root_forever (rs : list Request) (st : Store) :
  forallb from_view rs = true ->
  keys_unique st ->
  root_count st = 1%nat ->
  root_count (run_requests rs st) = 1%nat
  /\ keys_unique (run_requests rs st)
  /\ count (run_requests rs st) <> 0%nat.
Proof.
  revert st. induction rs as [| r rest IH]; intros st Hviews Hu Hone.
  - cbn [run_requests]. split; [exact Hone |]. split; [exact Hu |].
    destruct st; [discriminate | discriminate].
  - cbn [forallb] in Hviews. apply andb_true_iff in Hviews.
    destruct Hviews as [Hview Hrest].
    cbn [run_requests]. apply IH.
    + exact Hrest.
    + apply keeps_keys_unique_run_request. exact Hu.
    + rewrite run_request_keeps_roots; [exact Hone | exact Hview | exact Hu |].
      destruct st; discriminate.
Qed.

(** * Unique names *)

Lemma str_eqb_eq (a : str) : forall b, str_eqb a b = true <-> a = b.
Proof.
  induction a as [| x a' IH]; intros [| y b']; cbn [str_eqb].
  - split; reflexivity.
  - split; discriminate.
  - split; discriminate.
  - rewrite andb_true_iff, N.eqb_eq, IH. split.
    + intros [-> ->]. reflexivity.
    + intros [= -> ->]. split; reflexivity.
Qed.

(** A name that validation did not find taken belongs to no other row. *)
Lemma name_not_taken (st : Store) (f : NodeForm) (r : Row) :
  name_taken st f = false ->
  In r st ->
  Some (pk r) <> id (instance f) ->
  row_name r <> data_name f.
Proof.
  unfold name_taken. intros Htaken Hr Hother Hname.
  assert (Hex : existsb
                  (fun r0 =>
                     str_eqb (row_name r0) (data_name f)
                     && negb (option_Z_eqb (Some (pk r0)) (id (instance f))))
                  st = true).
  { apply existsb_exists. exists r. split; [exact Hr |].
    apply andb_true_iff. split.
    - apply str_eqb_eq. exact Hname.
    - destruct (option_Z_eqb (Some (pk r)) (id (instance f))) eqn:E;
        [| reflexivity].
      apply option_Z_eqb_eq in E. contradiction. }
  congruence.
Qed.

(** A move rearranges the rows: the keys and the names of the table are the
    same before and after. *)
Lemma move_rearranges (st : Store) (n : Node) (t : Z) (pos : Pos) :
  keys_unique st ->
  Permutation (map pk (snd (move n t pos st))) (map pk st)
  /\ Permutation (map row_name (snd (move n t pos st))) (map row_name st).
Proof.
  intros Hu. unfold move.
  destruct (row_for st n) as [r |] eqn:Hr;
    [| split; apply Permutation_refl].
  destruct (find_row t st) as [tr |]; [| split; apply Permutation_refl].
  destruct (in_branch st (pk r) tr); cbn [snd];
    [split; apply Permutation_refl |].
  unfold row_for in Hr. destruct (id n) as [k |]; [| discriminate].
  assert (Hpk : pk r = k) by exact (find_row_pk k st r Hr).
  rewrite Hpk.
  pose proof (keys_unique_split k st r Hu Hr) as Hsplit.
  set (rest := filter (fun x => negb (pk x =? k)) st) in *.
  set (moved := mkRow k (row_name r) (row_aliases r) (row_order r)
                  (Some (pk tr))).
  pose proof (insert_sorted_perm moved rest) as Hins.
  split.
  - apply perm_trans with (map pk (moved :: rest)).
    + apply Permutation_map. exact Hins.
    + apply perm_trans with (map pk (r :: rest)).
      * cbn [map moved pk]. rewrite Hpk. apply Permutation_refl.
      * apply Permutation_map. apply Permutation_sym. exact Hsplit.
  - apply perm_trans with (map row_name (moved :: rest)).
    + apply Permutation_map. exact Hins.
    + apply perm_trans with (map row_name (r :: rest)).
      * apply Permutation_refl.
      * apply Permutation_map. apply Permutation_sym. exact Hsplit.
Qed.

Lemma names_unique_insert (new : Row) (st : Store) :
  names_unique st ->
  (forall r, In r st -> row_name r <> row_name new) ->
  names_unique (insert_sorted new st).
Proof.
  unfold names_unique. intros Hn Hfree.
  apply (Permutation_NoDup
           (Permutation_sym
              (Permutation_map row_name (insert_sorted_perm new st)))).
  cbn [map]. constructor; [| exact Hn].
  intros Hin. apply in_map_iff in Hin. destruct Hin as [r [Hname Hr]].
  exact (Hfree r Hr Hname).
Qed.

Lemma names_unique_filter (keep : Row -> bool) (st : Store) :
  names_unique st -> names_unique (filter keep st).
Proof.
  unfold names_unique. induction st as [| x rest IH]; intros Hn.
  - constructor.
  - cbn [map] in Hn. inversion Hn as [| ? ? Hnotin Hrest]; subst.
    cbn [filter]. destruct (keep x); [| exact (IH Hrest)].
    cbn [map]. constructor; [| exact (IH Hrest)].
    intros Hin. apply Hnotin. apply in_map_iff in Hin.
    destruct Hin as [y [Hy Hin]]. apply filter_In in Hin.
    apply in_map_iff. exists y. split; [exact Hy | exact (proj1 Hin)].
Qed.

(** Rewriting the row of one key with a name that no other row has. *)
Lemma names_unique_saved (self : Node) (k : Z) (st : Store) :
  id self = Some k ->
  keys_unique st ->
  names_unique st ->
  (forall r, In r st -> pk r <> k -> row_name r <> name self) ->
  names_unique (map (save_row self) st).
Proof.
  unfold keys_unique, names_unique. intros Hid.
  induction st as [| x rest IH]; intros Hu Hn Hfree.
  - constructor.
  - cbn [map] in Hu, Hn |- *.
    inversion Hu as [| ? ? Hknot Hurest]; subst.
    inversion Hn as [| ? ? Hnnot Hnrest]; subst.
    assert (Hfree' : forall r, In r rest -> pk r <> k -> row_name r <> name self).
    { intros r Hr. apply Hfree. right. exact Hr. }
    constructor; [| exact (IH Hurest Hnrest Hfree')].
    intros Hin. apply in_map_iff in Hin. destruct Hin as [y' [Hy' Hin]].
    apply in_map_iff in Hin. destruct Hin as [y [<- Hy]].
    assert (Hyx : pk y <> pk x).
    { intros Heq. apply Hknot. rewrite <- Heq. apply in_map. exact Hy. }
    unfold save_row in Hy'. rewrite Hid in Hy'. cbn [option_Z_eqb] in Hy'.
    destruct (Z.eqb_spec (pk y) k) as [Hyk | Hyk];
      destruct (Z.eqb_spec (pk x) k) as [Hxk | Hxk];
      cbn [row_of row_name] in Hy'.
    + congruence.
    + symmetry in Hy'. exact (Hfree x (or_introl eq_refl) Hxk Hy').
    + exact (Hfree' y Hy Hyk Hy').
    + apply Hnnot. rewrite <- Hy'. apply in_map. exact Hy.
Qed.

(** The invariant of the table: unique keys and unique names. *)
Lemma NodeForm_save_keeps_unique (f : NodeForm) (commit : bool) :
  keeps (fun st => keys_unique st /\ names_unique st) (NodeForm_save f commit).
Proof.
  intros st [Hu Hn].
  split.
  { apply (keeps_NodeForm_save keys_unique).
    - apply keeps_keys_unique_add_sorted.
    - apply keeps_keys_unique_Model_save.
    - apply keeps_keys_unique_move.
    - exact Hu. }
  destruct (errors st f) as [| e es] eqn:Herr.
  2:{ rewrite NodeForm_save_invalid by (rewrite Herr; discriminate).
      exact Hn. }
  destruct (errors_nil st f Herr) as [_ [Htaken [_ [v Hv]]]].
  rewrite (NodeForm_save_valid st f commit v Herr Hv).
  destruct commit; cbn [negb]; [| exact Hn].
  destruct (id (construct_instance f)) as [k |] eqn:Hid.
  - unfold bind at 1. unfold Model_save.
    destruct (row_for st (construct_instance f)) as [r |] eqn:Hr;
      [| exact Hn].
    set (st1 := map (save_row (construct_instance f)) st).
    assert (Hn1 : names_unique st1).
    { apply (names_unique_saved (construct_instance f) k st Hid Hu Hn).
      intros x Hx Hxk. cbn [construct_instance name].
      apply (name_not_taken st f x Htaken Hx).
      change (id (instance f)) with (id (construct_instance f)).
      rewrite Hid. congruence. }
    assert (Hu1 : keys_unique st1)
      by (unfold keys_unique, st1; rewrite keys_saved; exact Hu).
    unfold bind at 1.
    pose proof (reads_only_get_parent (construct_instance f) st1) as Hread.
    destruct (get_parent (construct_instance f) st1) as [[cur | e] st'];
      cbn [snd] in Hread; subst st'; [| exact Hn1].
    destruct (option_Z_eqb cur v); cbn [negb]; [exact Hn1 |].
    destruct v as [t |]; cbn [on_parent]; [| exact Hn1].
    pose proof (move_rearranges st1 (construct_instance f) t sorted_child Hu1)
      as [_ Hnames].
    unfold bind.
    destruct (move (construct_instance f) t sorted_child st1)
      as [[u | e] st2]; unfold ret; cbn [snd] in *;
      exact (Permutation_NoDup (Permutation_sym Hnames) Hn1).
  - assert (Hfree : forall p,
               names_unique
                 (snd (add_sorted p (construct_instance f) st))).
    { intros p0. unfold add_sorted. rewrite Hid. cbn [snd].
      apply names_unique_insert; [exact Hn |].
      intros x Hx. cbn [row_of row_name construct_instance name].
      apply (name_not_taken st f x Htaken Hx).
      change (id (instance f)) with (id (construct_instance f)).
      rewrite Hid. discriminate. }
    unfold bind, get_store.
    destruct (count st =? 0)%nat; [apply Hfree |].
    destruct v as [t |]; cbn [on_parent]; [apply Hfree | exact Hn].
Qed.

(** X6.  Names stay unique: from a table in which no two rows share a key
    or a name, no sequence of form saves and deletes, with whatever data,
    leads to a table with two rows of the same name. *)
Theorem names_stay_unique (rs : list Request) (st : Store) :
  keys_unique st ->
  names_unique st ->
  names_unique (run_requests rs st).
Proof.
  intros Hu Hn.
  assert (H : keys_unique (run_requests rs st)
              /\ names_unique (run_requests rs st)); [| exact (proj2 H)].
  revert st Hu Hn. induction rs as [| r rest IH]; intros st Hu Hn.
  - split; assumption.
  - cbn [run_requests].
    assert (Hstep : keys_unique (snd (run_request r st))
                    /\ names_unique (snd (run_request r st))).
    { destruct r as [op | k]; unfold run_request.
      - apply (keeps_bind (fun s => keys_unique s /\ names_unique s)).
        + apply keeps_run_op. apply NodeForm_save_keeps_unique.
        + intros _. apply reads_only_keeps, reads_only_ret.
        + split; assumption.
      - apply (keeps_bind (fun s => keys_unique s /\ names_unique s)).
        + apply reads_only_keeps, reads_only_get_object_or_404.
        + intros inst s [Hus Hns]. split.
          * apply keeps_keys_unique_Node_delete. exact Hus.
          * unfold Node_delete, bind, get_store, raise.
            destruct (is_root s inst); cbn [snd]; [exact Hns |].
            unfold MP_Node_delete. destruct (id inst); cbn [snd];
              [| exact Hns].
            apply names_unique_filter. exact Hns.
        + split; assumption. }
    destruct Hstep as [Hu' Hn']. exact (IH _ Hu' Hn').
Qed.

(** * What a create and an edit do to the set of nodes *)

Lemma count_insert_sorted (new : Row) (st : Store) :
  count (insert_sorted new st) = S (count st).
Proof.
  unfold count. rewrite (Permutation_length (insert_sorted_perm new st)).
  reflexivity.
Qed.

Lemma clean_parent_required (st : Store) (f : NodeForm) (v : option Z) :
  disabled (parent f) = false ->
  required (parent f) = true ->
  clean_parent st f = inl v ->
  exists k, v = Some k.
Proof.
  unfold clean_parent. intros -> ->.
  destruct (data_parent f) as [k |]; [| discriminate].
  destruct (find_row k st); [| discriminate].
  intros [= <-]. exists k. reflexivity.
Qed.

(** The form that [__init__] builds for a new instance. *)
Lemma NodeForm_init_new (st : Store) (i : option Z) (n a : str)
    (p : option Z) :
  exists f,
    NodeForm_init new_instance i n a p st = (Ok f, st)
    /\ instance f = new_instance
    /\ data_name f = n
    /\ (count st <> 0%nat ->
        disabled (parent f) = false /\ required (parent f) = true).
Proof.
  unfold NodeForm_init, bind, get_store, ret.
  rewrite (is_root_unsaved st new_instance eq_refl). cbn [orb].
  destruct (Nat.eqb_spec (count st) 0) as [Hz | Hnz].
  - eexists. split; [reflexivity |].
    split; [reflexivity |]. split; [reflexivity |].
    intros Hc. contradiction.
  - cbn [new_instance id truthy].
    eexists. split; [reflexivity |].
    split; [reflexivity |]. split; [reflexivity |].
    intros _. split; reflexivity.
Qed.

(** X7.  A create through the form either adds exactly one node or leaves
    the table untouched: when it succeeds the new node is stored under a key
    that no row had and every row that was in the table is still there;
    when it raises, the table is as it was. *)
Theorem create_adds_one_node_or_nothing (st : Store) (i : option Z)
    (n a : str) (p : option Z) :
  match run_op (CreateOp i n a p true) st with
  | (Ok node, st') =>
      count st' = S (count st)
      /\ (exists k r,
            id node = Some k
            /\ find_row k st = None
            /\ find_row k st' = Some r)
      /\ (forall x, In x st -> In x st')
  | (Raise e, st') => st' = st
  end.
Proof.
  destruct (NodeForm_init_new st i n a p) as [f [Hinit [Hinst [Hname Hreq]]]].
  unfold run_op. rewrite (bind_ok _ _ _ _ _ Hinit).
  destruct (errors st f) as [| e es] eqn:Herr.
  2:{ rewrite NodeForm_save_invalid by (rewrite Herr; discriminate).
      reflexivity. }
  destruct (errors_nil st f Herr) as [_ [_ [_ [v Hv]]]].
  rewrite (NodeForm_save_valid st f true v Herr Hv).
  assert (Hid : id (construct_instance f) = None)
    by (cbn [construct_instance id]; rewrite Hinst; reflexivity).
  cbn [negb]. rewrite Hid.
  assert (Hadd : forall q,
             match add_sorted q (construct_instance f) st with
             | (Ok node, st') =>
                 count st' = S (count st)
                 /\ (exists k r,
                       id node = Some k
                       /\ find_row k st = None
                       /\ find_row k st' = Some r)
                 /\ (forall x, In x st -> In x st')
             | (Raise e, st') => st' = st
             end).
  { intros q. unfold add_sorted. rewrite Hid.
    split; [apply count_insert_sorted |].
    split.
    - exists (next_pk st), (row_of (next_pk st) q (construct_instance f)).
      split; [reflexivity |]. split; [apply next_pk_fresh |].
      rewrite find_row_insert_sorted by apply next_pk_fresh.
      cbn [row_of pk]. rewrite Z.eqb_refl. reflexivity.
    - intros x Hx.
      apply (Permutation_in x
               (Permutation_sym (insert_sorted_perm _ st))).
      right. exact Hx. }
  unfold bind, get_store.
  destruct (Nat.eqb_spec (count st) 0) as [Hz | Hnz].
  - apply Hadd.
  - destruct (Hreq Hnz) as [Hdis Hrq].
    destruct (clean_parent_required st f v Hdis Hrq Hv) as [k ->].
    cbn [on_parent]. apply Hadd.
Qed.

(** X8.  An edit through the form neither adds nor removes a node: when no
    two rows share a key, the keys of the table after the save of an edit
    form are the keys before it, in some order, whatever the data and
    whether the save went through, was refused or failed in the move. *)
Theorem edit_keeps_the_nodes (st : Store) (k : Z) (i : option Z) (n a : str)
    (p : option Z) (commit : bool) :
  keys_unique st ->
  Permutation (map pk (snd (run_op (EditOp k i n a p commit) st))) (map pk st)
  /\ count (snd (run_op (EditOp k i n a p commit) st)) = count st.
Proof.
  intros Hu.
  assert (Hperm : Permutation
                    (map pk (snd (run_op (EditOp k i n a p commit) st)))
                    (map pk st)).
  { unfold run_op. unfold bind at 1. unfold get_object_or_404.
    destruct (find_row k st) as [r |] eqn:Hr; [| apply Permutation_refl].
    unfold bind at 1.
    pose proof (reads_only_NodeForm_init (instance_of r) i n a p st) as Hread.
    destruct (NodeForm_init (instance_of r) i n a p st) as [[f | e] st']
      eqn:Hinit; cbn [snd] in Hread; subst st'; [| apply Permutation_refl].
    pose proof (NodeForm_init_instance _ _ _ _ _ _ _ _ Hinit) as Hinst.
    destruct (errors st f) as [| e es] eqn:Herr.
    2:{ rewrite NodeForm_save_invalid by (rewrite Herr; discriminate).
        apply Permutation_refl. }
    destruct (errors_nil st f Herr) as [_ [_ [_ [v Hv]]]].
    rewrite (NodeForm_save_valid st f commit v Herr Hv).
    destruct commit; cbn [negb]; [| apply Permutation_refl].
    assert (Hid : id (construct_instance f) = Some (pk r))
      by (cbn [construct_instance id]; rewrite Hinst; reflexivity).
    rewrite Hid.
    unfold bind at 1. unfold Model_save.
    destruct (row_for st (construct_instance f)) as [r0 |];
      [| apply Permutation_refl].
    set (st1 := map (save_row (construct_instance f)) st).
    assert (Hk1 : map pk st1 = map pk st) by apply keys_saved.
    assert (Hu1 : keys_unique st1)
      by (unfold keys_unique; rewrite Hk1; exact Hu).
    unfold bind at 1.
    pose proof (reads_only_get_parent (construct_instance f) st1) as Hread.
    destruct (get_parent (construct_instance f) st1) as [[cur | e] st'];
      cbn [snd] in Hread; subst st';
      [| cbn [snd]; rewrite Hk1; apply Permutation_refl].
    destruct (option_Z_eqb cur v); cbn [negb];
      [unfold ret; cbn [snd]; rewrite Hk1; apply Permutation_refl |].
    destruct v as [t |]; cbn [on_parent];
      [| unfold bind, raise; cbn [snd]; rewrite Hk1; apply Permutation_refl].
    pose proof (move_rearranges st1 (construct_instance f) t sorted_child Hu1)
      as [Hkeys _].
    rewrite Hk1 in Hkeys. unfold bind.
    destruct (move (construct_instance f) t sorted_child st1)
      as [[u | e] st2]; unfold ret; cbn [snd] in *; exact Hkeys. }
  split; [exact Hperm |].
  unfold count.
  rewrite <- (length_map pk), <- (length_map pk st).
  apply Permutation_length. exact Hperm.
Qed.

(** * Where a create puts the new node *)

(** X9.  A create under a parent puts the row of the new node among that
    parent's children after children that may stand before it and right
    before the first child that sorts after it, so that sorted children stay
    sorted, and leaves the children of every other node, and the roots, in
    the order they had. *)
Theorem create_keeps_sibling_order (st : Store) (f : NodeForm) (k : Z) :
  errors st f = [] ->
  id (instance f) = None ->
  count st <> 0%nat ->
  clean_parent st f = inl (Some k) ->
  exists node st' new before after,
    NodeForm_save f true st = (Ok node, st')
    /\ row_for st' node = Some new
    /\ row_parent new = Some k
    /\ get_children k st = before ++ after
    /\ get_children k st' = before ++ new :: after
    /\ Forall (fun r => in_order r new) before
    /\ match after with
       | [] => True
       | r :: _ => sorts_after r new = true
       end
    /\ (Sorted in_order (get_children k st) ->
        Sorted in_order (get_children k st'))
    /\ (forall q, q <> Some k -> siblings_under q st' = siblings_under q st).
Proof.
  intros Herr Hid Hcount Hv.
  set (new := row_of (next_pk st) (Some k) (construct_instance f)).
  assert (Hci : id (construct_instance f) = None) by exact Hid.
  assert (Hsave : NodeForm_save f true st
                  = (Ok (with_id (next_pk st) (construct_instance f)),
                     insert_sorted new st)).
  { rewrite (NodeForm_save_valid st f true (Some k) Herr Hv).
    cbn [negb]. rewrite Hci. unfold bind, get_store.
    destruct (Nat.eqb_spec (count st) 0) as [Hz | _]; [contradiction |].
    cbn [on_parent]. unfold add_child, add_sorted. rewrite Hci.
    reflexivity. }
  assert (Hchildren : get_children k (insert_sorted new st)
                      = place_sorted new (get_children k st)).
  { unfold get_children.
    change (Some k) with (row_parent new). apply siblings_insert_sorted. }
  destruct (place_sorted_spec new (get_children k st))
    as [before [after [Hsplit [Hplace [Hbefore Hafter]]]]].
  exists (with_id (next_pk st) (construct_instance f)), (insert_sorted new st),
    new, before, after.
  split; [exact Hsave |]. split.
  { unfold row_for. cbn [with_id id].
    rewrite find_row_insert_sorted by apply next_pk_fresh.
    change (pk new) with (next_pk st). rewrite Z.eqb_refl. reflexivity. }
  split; [reflexivity |]. split; [exact Hsplit |].
  split; [rewrite Hchildren; exact Hplace |].
  split; [exact Hbefore |]. split; [exact Hafter |]. split.
  - intros Hsorted. rewrite Hchildren. apply place_sorted_sorted.
    exact Hsorted.
  - intros q Hq. apply siblings_insert_other.
    change (row_parent new) with (Some k).
    destruct (option_Z_eqb (Some k) q) eqn:E; [| reflexivity].
    apply option_Z_eqb_eq in E. congruence.
Qed.

(** * Depth *)

Lemma parents_resolve_row (st : Store) (r : Row) (p : Z) :
  parents_resolve st = true ->
  In r st ->
  row_parent r = Some p ->
  exists pr, find_row p st = Some pr.
Proof.
  unfold parents_resolve. intros Hres Hr Hp.
  rewrite forallb_forall in Hres. specialize (Hres r Hr).
  rewrite Hp in Hres.
  destruct (find_row p st) as [pr |]; [exists pr; reflexivity | discriminate].
Qed.

(** The chain of ancestors of a stored node is not changed by the insertion
    of a row under a new key. *)
Lemma ancestors_insert_sorted (new : Row) (st : Store) :
  parents_resolve st = true ->
  find_row (pk new) st = None ->
  forall fuel q,
    (forall p, q = Some p -> exists pr, find_row p st = Some pr) ->
    ancestors fuel (insert_sorted new st) q = ancestors fuel st q.
Proof.
  intros Hres Hfresh.
  induction fuel as [| fuel IH]; intros q Hq; [reflexivity |].
  destruct q as [p |]; [| reflexivity].
  cbn [ancestors].
  destruct (Hq p eq_refl) as [pr Hpr].
  rewrite (find_row_insert_sorted new st p Hfresh).
  destruct (Z.eqb_spec (pk new) p) as [Heq | _]; [congruence |].
  rewrite Hpr. f_equal. apply IH.
  intros p' Hp'.
  exact (parents_resolve_row st pr p' Hres (find_row_In p st pr Hpr) Hp').
Qed.

(** X10.  In a table whose parent pointers all name rows, a node created
    through the form under a parent is one level below that parent: its
    depth is the depth that the parent had plus one. *)
Theorem created_child_is_one_level_below (st : Store) (f : NodeForm) (k : Z)
    (prow : Row) (d : nat) :
  parents_resolve st = true ->
  errors st f = [] ->
  id (instance f) = None ->
  clean_parent st f = inl (Some k) ->
  find_row k st = Some prow ->
  get_depth st (instance_of prow) = Some d ->
  exists node st',
    NodeForm_save f true st = (Ok node, st')
    /\ get_depth st' node = Some (S d).
Proof.
  intros Hres Herr Hid Hv Hk Hd.
  assert (Hci : id (construct_instance f) = None) by exact Hid.
  assert (Hcount : (count st =? 0)%nat = false).
  { destruct st; [discriminate | reflexivity]. }
  set (new := row_of (next_pk st) (Some k) (construct_instance f)).
  exists (with_id (next_pk st) (construct_instance f)), (insert_sorted new st).
  assert (Hfresh : find_row (pk new) st = None) by apply next_pk_fresh.
  assert (Hpk : pk prow = k) by exact (find_row_pk k st prow Hk).
  assert (Hk' : find_row k (insert_sorted new st) = Some prow).
  { rewrite (find_row_insert_sorted new st k Hfresh).
    destruct (Z.eqb_spec (pk new) k) as [Heq | _]; [congruence | exact Hk]. }
  assert (Hlen : length (insert_sorted new st) = S (length st))
    by apply count_insert_sorted.
  assert (Hchain : forall fuel,
             ancestors fuel (insert_sorted new st) (row_parent prow)
             = ancestors fuel st (row_parent prow)).
  { intros fuel. apply (ancestors_insert_sorted new st Hres Hfresh).
    intros p' Hp'.
    exact (parents_resolve_row st prow p' Hres (find_row_In k st prow Hk) Hp'). }
  unfold get_depth, row_for in Hd. cbn [instance_of id] in Hd.
  rewrite Hpk, Hk in Hd. injection Hd as Hd.
  split.
  - rewrite (NodeForm_save_valid st f true (Some k) Herr Hv).
    cbn [negb]. rewrite Hci. unfold bind, get_store. rewrite Hcount.
    cbn [on_parent]. unfold add_child, add_sorted. rewrite Hci. reflexivity.
  - unfold get_depth, row_for. cbn [with_id id].
    rewrite (find_row_insert_sorted new st (next_pk st) Hfresh).
    change (pk new) with (next_pk st). rewrite Z.eqb_refl.
    change (row_parent new) with (Some k).
    rewrite Hlen. cbn [ancestors]. rewrite Hk'. cbn [length].
    rewrite Hchain, Hd. reflexivity.
Qed.

End Taxonomy.

(** * Concrete runs *)

(** Validation of a value that starts with an ASCII character is the same
    under every Unicode table. *)
Lemma name_clean_ascii (u1 u2 : N -> bool) (c : N) (rest : str) :
  (c < 128)%N ->
  name_clean u1 (c :: rest) = name_clean u2 (c :: rest).
Proof.
  intros Hc. unfold name_clean, name_validators. cbn [flat_map].
  unfold node_name_validator, node_name_regex.
  rewrite !word_char_ascii by exact Hc. reflexivity.
Qed.

(** C5, as stated, fails.  ["1abcd"] is accepted although it does not
    consist only of letters, spaces and ['&'], and so is ["abcde"] followed
    by a newline; and a name of 51 letters is rejected although it matches
    the pattern and is not shorter than 5. *)
Lemma name_claim_counterexample :
  (name_accepted ascii_table (text "1abcd") = true
   /\ only_letters_spaces_amp (text "1abcd") = false)
  /\ (name_accepted ascii_table (text "abcde" ++ [10%N]) = true
      /\ only_letters_spaces_amp (text "abcde" ++ [10%N]) = false)
  /\ (name_accepted ascii_table (repeat 97%N 51) = false
      /\ node_name_regex ascii_table (repeat 97%N 51) = true
      /\ only_letters_spaces_amp (repeat 97%N 51) = true
      /\ (length (repeat 97%N 51) <? 5)%nat = false).
Proof. vm_compute. repeat split. Qed.

Lemma name_validation_witness :
  ends_with_newline (text "Atoms & Ions") = false
  /\ starts_with_other_word_char ascii_table (text "Atoms & Ions") = false
  /\ name_accepted ascii_table (text "Atoms & Ions") = true
  /\ name_accepted ascii_table (text "1<b>!") = false.
Proof.
  split; [reflexivity | split; [reflexivity |]].
  split.
  - apply (proj2 (proj2 (name_validation ascii_table (text "Atoms & Ions"))));
      [reflexivity | reflexivity |].
    vm_compute. repeat split; lia.
  - destruct (name_accepted ascii_table (text "1<b>!")) eqn:Hacc;
      [| reflexivity].
    destruct (proj1 (name_validation ascii_table (text "1<b>!")) Hacc)
      as [_ [_ Hbody]].
    vm_compute in Hbody. discriminate.
Defined.

(** Deleting the root of the sample tree is refused, deleting Physics
    removes Physics and Optics. *)
Lemma Node_delete_root_guard_witness :
  Node_delete (mkNode (Some 1) (text "Science") [] 0) sample_store
  = (Raise (PermissionDenied "Cannot delete root Topic."), sample_store)
  /\ fst (Node_delete (mkNode (Some 2) (text "Physics") [] 0) sample_store)
     = Ok tt.
Proof.
  split.
  - apply (proj1 (proj2 (Node_delete_root_guard sample_store
                           (mkNode (Some 1) (text "Science") [] 0)))).
    reflexivity.
  - apply (proj2 (proj2 (Node_delete_root_guard sample_store
                           (mkNode (Some 2) (text "Physics") [] 0)))).
    reflexivity.
Defined.

Lemma delete_button_hidden_for_root_witness :
  find_row 1 sample_store = Some (mkRow 1 (text "Science") [] 0 None)
  /\ fst (delete_button sample_delete_button 1 sample_store) = Ok None.
Proof.
  split; [reflexivity |].
  apply (proj2 (delete_button_hidden_for_root sample_delete_button
                  sample_store 1 (mkRow 1 (text "Science") [] 0 None)
                  eq_refl)).
  reflexivity.
Defined.

(** On plain text without an underscore the view does not depend on how
    the framework decodes escapes and reads other numerals. *)
Lemma add_child_view_plain_segment (u1 u2 : str -> str)
    (i1 i2 : str -> option Z) (segment : str) (st : Store) :
  existsb (N.eqb 95) segment = false ->
  plain_text segment = true ->
  AddChildNodeViewClass_init u1 i1 segment st
  = AddChildNodeViewClass_init u2 i2 segment st.
Proof.
  intros Hplain Htext.
  unfold AddChildNodeViewClass_init, filter_pk, int_of_text, unquote.
  rewrite Hplain, Htext. reflexivity.
Qed.



Lemma NodeForm_save_without_commit_witness :
  snd (NodeForm_save ascii_table sample_create_form false sample_store)
  = sample_store.
Proof.
  exact (proj1 (proj2 (NodeForm_save_without_commit ascii_table sample_store
                         sample_create_form))).
Defined.

Lemma NodeForm_init_parent_field_witness :
  keys_positive sample_store
  /\ is_root sample_store (mkNode (Some 4) (text "Optics") [] 0) = false
  /\ get_parent (mkNode (Some 4) (text "Optics") [] 0) sample_store
     = (Ok (Some 2), sample_store)
  /\ exists f,
       NodeForm_init (mkNode (Some 4) (text "Optics") [] 0) None
         (text "Optics") [] (Some 3) sample_store = (Ok f, sample_store)
       /\ initial (parent f) = Some 2
       /\ disabled (parent f) = false
       /\ required (parent f) = true.
Proof.
  assert (Hkeys : keys_positive sample_store)
    by (repeat constructor).
  split; [exact Hkeys |]. split; [reflexivity |]. split; [reflexivity |].
  apply (proj2 (NodeForm_init_parent_field sample_store
                  (mkNode (Some 4) (text "Optics") [] 0) None
                  (text "Optics") [] (Some 3)) (Some 2)).
  - exact Hkeys.
  - reflexivity.
  - reflexivity.
Defined.

Lemma first_node_becomes_root_witness :
  count [] = 0%nat
  /\ run_op ascii_table (CreateOp None (text "Science") [] (Some 7) true) []
     = (Ok (mkNode (Some 1) (text "Science") [] 0),
        [mkRow 1 (text "Science") [] 0 None]).
Proof.
  split; [reflexivity |].
  apply (proj2 (proj2 (first_node_becomes_root ascii_table [] eq_refl))).
  - reflexivity.
  - simpl. lia.
Defined.

Lemma second_node_requires_parent_witness :
  id new_instance = None
  /\ count sample_store <> 0%nat
  /\ errors ascii_table sample_store sample_create_form = []
  /\ NodeForm_save ascii_table
       (ModelForm_init new_instance None (text "Atoms & Ions") [] None)
       true sample_store
     = (Raise ValueError, sample_store).
Proof.
  split; [reflexivity |]. split; [discriminate |]. split; [reflexivity |].
  apply (second_node_requires_parent ascii_table sample_store new_instance
           None (text "Atoms & Ions") [] None eq_refl).
  - discriminate.
  - reflexivity.
Defined.

Lemma edit_moves_iff_parent_differs_witness :
  id (instance sample_edit_form) = Some 4
  /\ errors ascii_table sample_store sample_edit_form = []
  /\ clean_parent sample_store sample_edit_form = inl (Some 3)
  /\ get_parent (instance sample_edit_form) sample_store
     = (Ok (Some 2), sample_store)
  /\ NodeForm_save ascii_table sample_edit_form true sample_store
     = (Ok (mkNode (Some 4) (text "Optics") (text "Light") 0),
        [ mkRow 1 (text "Science") [] 0 None;
          mkRow 3 (text "Biology") [] 0 (Some 1);
          mkRow 2 (text "Physics") [] 0 (Some 1);
          mkRow 4 (text "Optics") (text "Light") 0 (Some 3) ]).
Proof.
  split; [reflexivity |]. split; [reflexivity |]. split; [reflexivity |].
  split; [reflexivity |].
  assert (Hdiff : Some 2 <> Some 3) by discriminate.
  assert (Hother : 3 <> 4) by discriminate.
  exact (proj1 (proj2 (proj2 (edit_moves_iff_parent_differs ascii_table
                                sample_store sample_edit_form 4 (Some 2)
                                (Some 3) eq_refl eq_refl eq_refl eq_refl))
                  Hdiff 3 (mkRow 3 (text "Biology") [] 0 (Some 1))
                  eq_refl Hother eq_refl)).
Defined.

(** C4, as stated, fails.  In the sample tree Optics is a child of Physics.
    Editing Physics with Optics selected as its parent differs from its
    current parent, Science; the form has no errors; yet the save raises
    and Physics stays under Science. *)
Lemma edit_claim_counterexample :
  let physics := mkNode (Some 2) (text "Physics") [] 0 in
  let op := EditOp 2 None (text "Physics") [] (Some 4) true in
  get_parent physics sample_store = (Ok (Some 1), sample_store)
  /\ (exists f,
        NodeForm_init physics None (text "Physics") [] (Some 4) sample_store
        = (Ok f, sample_store)
        /\ errors ascii_table sample_store f = []
        /\ clean_parent sample_store f = inl (Some 4))
  /\ run_op ascii_table op sample_store
     = (Raise InvalidMoveToDescendant, sample_store)
  /\ get_parent physics (snd (run_op ascii_table op sample_store))
     = (Ok (Some 1), sample_store).
Proof.
  cbv zeta. split; [reflexivity |]. split.
  - eexists. split; [reflexivity |]. split; reflexivity.
  - split; reflexivity.
Qed.

Lemma single_root_preserved_witness :
  root_count sample_store = 1%nat
  /\ (root_count (run_ops ascii_table sample_ops sample_store) <= 1)%nat.
Proof.
  split; [reflexivity |].
  exact (proj1 (single_root_preserved ascii_table sample_store sample_ops
                  eq_refl)).
Defined.

(** The sample table has unique keys and unique names. *)
Lemma sample_store_keys_unique : keys_unique sample_store.
Proof.
  unfold keys_unique. cbn.
  repeat (constructor; [cbn; intuition discriminate |]). constructor.
Qed.

Lemma sample_store_names_unique : names_unique sample_store.
Proof.
  unfold names_unique. cbn.
  repeat (constructor; [cbn; intuition discriminate |]). constructor.
Qed.

Lemma label_from_instance_reads_back_witness :
  label_from_instance sample_store (mkNode (Some 4) (text "Optics") [] 0)
  = inl (text "-- Optics")
  /\ exists d,
       get_depth sample_store (mkNode (Some 4) (text "Optics") [] 0) = Some d
       /\ read_label (text "-- Optics") = Some (d, text "Optics")
       /\ length (text "-- Optics") = (d + length (text "Optics"))%nat.
Proof.
  split; [reflexivity |].
  exact (label_from_instance_reads_back sample_store
           (mkNode (Some 4) (text "Optics") [] 0) (text "-- Optics") eq_refl).
Defined.

Lemma Node_delete_keeps_roots_witness :
  root_count
    (snd (Node_delete (mkNode (Some 2) (text "Physics") [] 0) sample_store))
  = root_count sample_store.
Proof.
  exact (proj1 (Node_delete_keeps_roots sample_store
                  (mkNode (Some 2) (text "Physics") [] 0)
                  sample_store_keys_unique)).
Defined.

Lemma one_root_forever_witness :
  forallb from_view sample_requests = true
  /\ root_count sample_store = 1%nat
  /\ root_count (run_requests ascii_table sample_requests sample_store)
     = 1%nat.
Proof.
  split; [reflexivity |]. split; [reflexivity |].
  exact (proj1 (one_root_forever ascii_table sample_requests sample_store
                  eq_refl sample_store_keys_unique eq_refl)).
Defined.

Lemma names_stay_unique_witness :
  names_unique (run_requests ascii_table sample_requests sample_store).
Proof.
  exact (names_stay_unique ascii_table sample_requests sample_store
           sample_store_keys_unique sample_store_names_unique).
Defined.

Lemma edit_keeps_the_nodes_witness :
  count (snd (run_op ascii_table
                (EditOp 4 None (text "Optics") [] (Some 3) true)
                sample_store))
  = count sample_store.
Proof.
  exact (proj2 (edit_keeps_the_nodes ascii_table sample_store 4 None
                  (text "Optics") [] (Some 3) true sample_store_keys_unique)).
Defined.

Lemma create_keeps_sibling_order_witness :
  errors ascii_table sample_store sample_create_form = []
  /\ id (instance sample_create_form) = None
  /\ count sample_store <> 0%nat
  /\ clean_parent sample_store sample_create_form = inl (Some 2)
  /\ exists node st' new before after,
       NodeForm_save ascii_table sample_create_form true sample_store
       = (Ok node, st')
       /\ row_for st' node = Some new
       /\ row_parent new = Some 2
       /\ get_children 2 sample_store = before ++ after
       /\ get_children 2 st' = before ++ new :: after
       /\ Forall (fun r => in_order r new) before
       /\ match after with
          | [] => True
          | r :: _ => sorts_after r new = true
          end
       /\ (Sorted in_order (get_children 2 sample_store) ->
           Sorted in_order (get_children 2 st'))
       /\ (forall q,
             q <> Some 2 ->
             siblings_under q st' = siblings_under q sample_store).
Proof.
  split; [reflexivity |]. split; [reflexivity |].
  split; [discriminate |]. split; [reflexivity |].
  assert (Hcount : count sample_store <> 0%nat) by discriminate.
  exact (create_keeps_sibling_order ascii_table sample_store
           sample_create_form 2 eq_refl eq_refl Hcount eq_refl).
Defined.

Lemma created_child_is_one_level_below_witness :
  parents_resolve sample_store = true
  /\ get_depth sample_store
       (instance_of (mkRow 2 (text "Physics") [] 0 (Some 1))) = Some 2%nat
  /\ exists node st',
       NodeForm_save ascii_table sample_create_form true sample_store
       = (Ok node, st')
       /\ get_depth st' node = Some 3%nat.
Proof.
  split; [reflexivity |]. split; [reflexivity |].
  exact (created_child_is_one_level_below ascii_table sample_store
           sample_create_form 2 (mkRow 2 (text "Physics") [] 0 (Some 1))
           2%nat eq_refl eq_refl eq_refl eq_refl eq_refl eq_refl).
Defined.
